(** * DeliverEase standalone widget: the client-side controller

    A shallow embedding of the script that [generateStandaloneWidget]
    (ui/src/components/ManualAddressForm.tsx, second document) emits:
    phone sanitising and validation, the timeout race around the lookup
    request, the classification of the response, the cross-frame messages
    and the manual-entry form.  The React postal-code form of the same
    file and the constants of ui/vite.config.ts are embedded as well.

    JavaScript strings are sequences of UTF-16 code units; here a string is
    the sequence of its UTF-8 bytes ([string]).  Every character the script
    looks at (the digits [0-9] and the space) is a single byte below 128 in
    UTF-8 and no byte of a longer UTF-8 sequence is below 128, so filtering
    on digits and splitting on the space agree in both encodings. *)

From Stdlib Require Import ZArith Ascii String List Bool Lia.
From stdpp Require Import base option list strings.

Local Open Scope Z_scope.

(** ** Regular expressions

    The script uses two regular expressions, [/^\d{8}$/] (with [test]) and
    [/[^0-9]/g] (with [replace]).  The fragment below covers both: character
    sets, sequencing, alternation and bounded repetition, matched by
    derivatives. *)

Module Regex.

Inductive charset : Type :=
| CsDigit                      (* \d : the ten ASCII digits in JavaScript *)
| CsRange (lo hi : ascii)      (* [lo-hi] *)
| CsNot (cs : charset).        (* [^...] *)

Fixpoint in_charset (cs : charset) (c : ascii) : bool :=
  match cs with
  | CsDigit => (48 <=? nat_of_ascii c)%nat && (nat_of_ascii c <=? 57)%nat
  | CsRange lo hi =>
      (nat_of_ascii lo <=? nat_of_ascii c)%nat &&
      (nat_of_ascii c <=? nat_of_ascii hi)%nat
  | CsNot cs' => negb (in_charset cs' c)
  end.

Inductive regex : Type :=
| RNever                       (* matches nothing *)
| REmpty                       (* matches the empty string *)
| RSet (cs : charset)          (* one character of the set *)
| RSeq (r1 r2 : regex)
| RAlt (r1 r2 : regex).

(* r{n} *)
Fixpoint RRepeat (r : regex) (n : nat) : regex :=
  match n with
  | O => REmpty
  | S n' => RSeq r (RRepeat r n')
  end.

Fixpoint nullable (r : regex) : bool :=
  match r with
  | RNever => false
  | REmpty => true
  | RSet _ => false
  | RSeq r1 r2 => nullable r1 && nullable r2
  | RAlt r1 r2 => nullable r1 || nullable r2
  end.

Fixpoint derive (c : ascii) (r : regex) : regex :=
  match r with
  | RNever => RNever
  | REmpty => RNever
  | RSet cs => if in_charset cs c then REmpty else RNever
  | RSeq r1 r2 =>
      if nullable r1
      then RAlt (RSeq (derive c r1) r2) (derive c r2)
      else RSeq (derive c r1) r2
  | RAlt r1 r2 => RAlt (derive c r1) (derive c r2)
  end.

(* /^r$/.test(s): without the m flag, ^ and $ match only at the two ends
   of the input, so the whole string has to match r. *)
Fixpoint test_anchored (r : regex) (s : string) : bool :=
  match s with
  | EmptyString => nullable r
  | String c s' => test_anchored (derive c r) s'
  end.

(* s.replace(/cs/g, replacement) for a pattern that is one character set:
   every character of the set is replaced, the others are kept. *)
Fixpoint replace_set_g (cs : charset) (replacement : string) (s : string)
  : string :=
  match s with
  | EmptyString => EmptyString
  | String c s' =>
      if in_charset cs c
      then replacement +:+ replace_set_g cs replacement s'
      else String c (replace_set_g cs replacement s')
  end.

End Regex.

(** ** Strings and arrays of strings *)

Module Js.

(* s.split(sep) for a separator of one character: the result is never
   empty, ''.split(' ') is ['']. *)
Fixpoint split (sep : ascii) (s : string) : list string :=
  match s with
  | EmptyString => [EmptyString]
  | String c s' =>
      if Ascii.eqb c sep
      then EmptyString :: split sep s'
      else match split sep s' with
           | piece :: pieces => String c piece :: pieces
           | [] => [String c EmptyString]
           end
  end.

(* a.join(sep) *)
Fixpoint join (sep : string) (a : list string) : string :=
  match a with
  | [] => EmptyString
  | [piece] => piece
  | piece :: rest => piece +:+ sep +:+ join sep rest
  end.

(* a.slice(start) *)
Definition slice_from (start : nat) (a : list string) : list string :=
  drop start a.

(* v || '' where v is a string or undefined: the empty string and
   undefined are both falsy. *)
Definition or_empty (v : option string) : string :=
  match v with
  | Some (String c s) => String c s
  | Some EmptyString => EmptyString
  | None => EmptyString
  end.

(* a === b on strings *)
Definition str_eq (a b : string) : bool := String.eqb a b.

(* The characters of a string, to state properties of each of them. *)
Definition chars (s : string) : list ascii := list_ascii_of_string s.

End Js.

(** ** Input sanitizer and validator *)

Definition norwegianPhoneRegex : Regex.regex :=
  Regex.RRepeat (Regex.RSet Regex.CsDigit) 8.

Definition validatePhoneNumber (number : string) : bool :=
  Regex.test_anchored norwegianPhoneRegex number.

(* value.replace(/[^0-9]/g, ''), as written in handlePhoneChange and in the
   paste listener. *)
Definition sanitize (value : string) : string :=
  Regex.replace_set_g (Regex.CsNot (Regex.CsRange "0" "9")) "" value.

(** ** Manual-entry data *)

Record ManualEntryData : Type := {
  md_phoneNumber : string;
  md_firstName : string;
  md_lastName : string;
  md_address : string;
  md_postalCode : string;
  md_city : string
}.

(* The object literal of the manual form's submit listener; the arguments
   are the values of #manual-phone, #manual-name, #manual-address,
   #manual-postal and #manual-city. *)
Definition manualData (manual_phone manual_name manual_address manual_postal
                       manual_city : string) : ManualEntryData :=
  {| md_phoneNumber := manual_phone;
     md_firstName := Js.or_empty (Js.split " " manual_name !! 0%nat);
     md_lastName :=
       Js.or_empty
         (Some (Js.join " " (Js.slice_from 1 (Js.split " " manual_name))));
     md_address := manual_address;
     md_postalCode := manual_postal;
     md_city := manual_city |}.

(** ** Promises, timers and the timeout race *)

Record JsError : Type := { error_name : string; message : string }.

(* new Error(msg) *)
Definition Error (msg : string) : JsError :=
  {| error_name := "Error"; message := msg |}.

Inductive settlement (A : Type) : Type :=
| Fulfilled (value : A)
| Rejected (reason : JsError).
Arguments Fulfilled {A} value.
Arguments Rejected {A} reason.

(* A promise is pending ([None]) or settled. *)
Definition promise (A : Type) : Type := option (settlement A).

(* resolve / reject: only the first settlement counts. *)
Definition settle {A} (p : promise A) (s : settlement A) : promise A :=
  match p with
  | None => Some s
  | Some _ => p
  end.

Inductive timer : Type :=
| TimerArmed (delay : Z)
| TimerFired
| TimerCleared.

Definition clearTimeout (t : timer) : timer :=
  match t with
  | TimerArmed _ => TimerCleared
  | TimerFired => TimerFired
  | TimerCleared => TimerCleared
  end.

(* The objects one call of callWithTimeout creates. *)
Record race_state (A : Type) : Type := {
  call : promise A;            (* the argument [promise] *)
  timeoutPromise : promise A;
  timeoutHandle : timer;
  raced : promise A;           (* Promise.race([promise, timeoutPromise]) *)
  returned : promise A         (* the promise of the async function *)
}.
Arguments call {A} _.
Arguments timeoutPromise {A} _.
Arguments timeoutHandle {A} _.
Arguments raced {A} _.
Arguments returned {A} _.

(* Promise.race settles like the first of its inputs that settles; inputs
   settled in the same turn are taken in array order. *)
Definition promise_race {A} (c : race_state A) : race_state A :=
  {| call := call c;
     timeoutPromise := timeoutPromise c;
     timeoutHandle := timeoutHandle c;
     raced := match raced c with
              | Some s => Some s
              | None => match call c with
                        | Some s => Some s
                        | None => timeoutPromise c
                        end
              end;
     returned := returned c |}.

(* The body of callWithTimeout after [await Promise.race(...)]: the try
   branch clears the timer and returns the result, the catch branch clears
   the timer and rethrows the error. *)
Definition after_await {A} (c : race_state A) : race_state A :=
  match returned c, raced c with
  | None, Some (Fulfilled result) =>
      {| call := call c;
         timeoutPromise := timeoutPromise c;
         timeoutHandle := clearTimeout (timeoutHandle c);
         raced := raced c;
         returned := Some (Fulfilled result) |}
  | None, Some (Rejected error) =>
      {| call := call c;
         timeoutPromise := timeoutPromise c;
         timeoutHandle := clearTimeout (timeoutHandle c);
         raced := raced c;
         returned := Some (Rejected error) |}
  | _, _ => c
  end.

(* The promise reactions that run before the next task. *)
Definition microtasks {A} (c : race_state A) : race_state A :=
  after_await (promise_race c).

Definition callWithTimeout {A} (p : promise A) (timeoutMs : Z)
  : race_state A :=
  microtasks
    {| call := p;
       timeoutPromise := None;
       timeoutHandle := TimerArmed timeoutMs;
       raced := None;
       returned := None |}.

(* What the event loop can deliver to one call of callWithTimeout. *)
Inductive race_event (A : Type) : Type :=
| CallSettles (s : settlement A)   (* the supplied promise settles *)
| TimerElapses.                    (* the setTimeout callback is due *)
Arguments CallSettles {A} s.
Arguments TimerElapses {A}.

Definition race_step {A} (c : race_state A) (ev : race_event A)
  : race_state A :=
  match ev with
  | CallSettles s =>
      microtasks
        {| call := settle (call c) s;
           timeoutPromise := timeoutPromise c;
           timeoutHandle := timeoutHandle c;
           raced := raced c;
           returned := returned c |}
  | TimerElapses =>
      match timeoutHandle c with
      | TimerArmed _ =>
          (* () => reject(new Error('ApiTimeoutError')) *)
          microtasks
            {| call := call c;
               timeoutPromise :=
                 settle (timeoutPromise c) (Rejected (Error "ApiTimeoutError"));
               timeoutHandle := TimerFired;
               raced := raced c;
               returned := returned c |}
      | TimerFired => c
      | TimerCleared => c
      end
  end.

Definition race_run {A} (c : race_state A) (evs : list (race_event A))
  : race_state A :=
  fold_left race_step evs c.

(* Which of the two settles first, read off the promise handed in and the
   order in which the event loop delivers the two events. *)
Inductive winner (A : Type) : Type :=
| CallWins (s : settlement A)
| TimerWins.
Arguments CallWins {A} s.
Arguments TimerWins {A}.

Definition first_to_settle {A} (p : promise A) (evs : list (race_event A))
  : option (winner A) :=
  match p with
  | Some s => Some (CallWins s)
  | None =>
      match evs with
      | [] => None
      | CallSettles s :: _ => Some (CallWins s)
      | TimerElapses :: _ => Some TimerWins
      end
  end.

Definition rejects_with_message {A} (msg : string) (p : promise A) : Prop :=
  exists error, p = Some (Rejected error) /\ message error = msg.

(* What a caller of callWithTimeout can observe: everything but the state
   of the promise it handed in. *)
Definition race_observable {A} (c : race_state A)
  : promise A * promise A * promise A * timer :=
  (returned c, raced c, timeoutPromise c, timeoutHandle c).

(** ** Translations and the generator's choice of language *)

Record translation : Type := {
  check : string;
  phoneInputHelper : string;
  phoneNumberPlaceholder : string;
  phoneValidationError : string;
  addressFound : string;
  timeoutError : string;
  lookupFailed : string;
  manualEntryPrompt : string;
  manualEntryTitle : string;
  deliveryCheckFailed : string;
  deliveryUnavailable : string
}.

Definition translations_no : translation :=
  {| check := "Sjekk";
     phoneInputHelper := "Skriv inn ditt 8-sifrede norske telefonnummer for å finne din adresse automatisk.";
     phoneNumberPlaceholder := "12345678";
     phoneValidationError := "Telefonnummeret må være 8 siffer.";
     addressFound := "Adresse funnet! Oppdaterer leveringsvalg...";
     timeoutError := "Forespørselen tok for lang tid. Prøv igjen eller skriv inn adressen manuelt.";
     lookupFailed := "Kunne ikke finne adresse for dette telefonnummeret.";
     manualEntryPrompt := "Vennligst fyll inn adressen manuelt.";
     manualEntryTitle := "Fyll inn adresse manuelt";
     deliveryCheckFailed := "Kunne ikke hente leveringsalternativer.";
     deliveryUnavailable := "Ingen levering tilgjengelig for dette postnummeret." |}.

Definition translations_en : translation :=
  {| check := "Check";
     phoneInputHelper := "Enter your 8-digit Norwegian phone number to automatically find your address.";
     phoneNumberPlaceholder := "12345678";
     phoneValidationError := "Phone number must be 8 digits.";
     addressFound := "Address found! Updating delivery options...";
     timeoutError := "Request took too long. Please try again or enter the address manually.";
     lookupFailed := "Could not find address for this phone number.";
     manualEntryPrompt := "Please enter the address manually.";
     manualEntryTitle := "Enter Address Manually";
     deliveryCheckFailed := "Failed to fetch delivery options.";
     deliveryUnavailable := "No delivery available for this postal code." |}.

(* s.startsWith(prefix) *)
Definition startsWith (s pre : string) : bool := String.prefix pre s.

(* const lang = defaultLanguage || (detected.startsWith('no') ? 'no' : 'en');
   [defaultLanguage] is an optional string, undefined and '' are falsy;
   [detected] is navigator.language or ''. *)
Definition select_lang (defaultLanguage : option string) (detected : string)
  : string :=
  match defaultLanguage with
  | Some (String c s) => String c s
  | Some EmptyString | None => if startsWith detected "no" then "no" else "en"
  end.

(* translations[lang]; the object literal has the two keys 'no' and 'en'.
   Any other language code is outside the generator's contract: the lookup
   gives no translation table and no usable widget comes out. *)
Definition translations (lang : string) : option translation :=
  if Js.str_eq lang "no" then Some translations_no
  else if Js.str_eq lang "en" then Some translations_en
  else None.

(** ** The generated widget *)

(* What the script is generated with and where it runs: the two template
   parameters and [window.parent && window.parent !== window]. *)
Record config : Type := {
  API_URL : string;
  TRANSLATIONS : translation;
  embedded : bool
}.

(* generateStandaloneWidget(apiUrl, defaultLanguage), as far as the script
   is concerned. *)
Definition generateStandaloneWidget (apiUrl : string)
    (defaultLanguage : option string) (detected : string) (in_frame : bool)
  : option config :=
  match translations (select_lang defaultLanguage detected) with
  | Some translation =>
      Some {| API_URL := apiUrl; TRANSLATIONS := translation;
              embedded := in_frame |}
  | None => None
  end.

(* Parsed JSON.  Numbers are kept as integers; the script never computes
   with the address it receives. *)
#[warnings="-register-all"]
Inductive Json : Type :=
| JNull
| JBool (b : bool)
| JNumber (n : Z)
| JString (s : string)
| JArray (items : list Json)
| JObject (members : list (string * Json)).

(* A fetch Response: its status and what response.json() settles to. *)
Record Response : Type := {
  status : Z;
  json_body : settlement Json
}.

(* response.ok *)
Definition ok (response : Response) : bool :=
  (200 <=? status response) && (status response <=? 299).

Inductive payload : Type :=
| AddressFound (phoneNumber : string) (address : Json)
    (* { phoneNumber, address } *)
| ManualEntryRequest (phoneNumber : string) (error : string)
    (* { phoneNumber, manualEntry: true, error } *)
| ManualData (data : ManualEntryData).

Record OutgoingMessage : Type := {
  msg_type : string;
  msg_data : payload
}.

(* What the script does to the outside, in the order it does it. *)
Inductive effect : Type :=
| PostMessage (m : OutgoingMessage) (targetOrigin : string)
| FetchCall (url method : string) (headers : list (string * string))
    (body : Json)                 (* the value JSON.stringify is given *)
| ConsoleLog (text : string)
| ConsoleError (text : string) (error : JsError)
| ToastShown (text : string) (isError : bool)
| PopupShown (errorMessage : string)
| PopupClosed.

Inductive display : Type :=
| DisplayUnset
| DisplayNone
| DisplayBlock.

(* One #manual-entry-overlay: the advisory text and the prefilled phone. *)
Record popup : Type := {
  popup_message : string;
  manual_phone : string
}.

(* The elements the script reads and writes. *)
Record Document : Type := {
  input_value : string;          (* #phoneNumber .value *)
  input_disabled : bool;         (* #phoneNumber .disabled *)
  button_disabled : bool;        (* #checkButton .disabled *)
  error_text : string;           (* #errorMessage .textContent *)
  error_display : display;       (* #errorMessage .style.display *)
  buttonText_display : display;
  spinner_display : display;
  toast_text : string;
  toast_class : string;
  overlays : list popup          (* in document order *)
}.

(* A running call of handleSubmit: its timeout race and where it waits. *)
Inductive stage : Type :=
| AwaitingLookup                       (* await callWithTimeout(...) *)
| AwaitingJson (response : Response)   (* await response.json() *)
| Completed.

Record invocation : Type := {
  race : race_state Response;
  at_stage : stage
}.

Record widget : Type := {
  phoneNumber : string;          (* let phoneNumber *)
  isLoading : bool;              (* let isLoading *)
  document : Document;
  invocations : list invocation; (* every handleSubmit call that got past
                                    its guard, by number *)
  trace : list effect
}.

Definition in_flight (inv : invocation) : bool :=
  match at_stage inv with
  | AwaitingLookup => true
  | AwaitingJson _ => true
  | Completed => false
  end.

Definition count_in_flight (l : list invocation) : nat :=
  length (List.filter in_flight l).

Definition requests_in_flight (st : widget) : nat :=
  count_in_flight (invocations st).

(* The fetch of an invocation has not settled yet, whether or not anybody
   still waits for it. *)
Definition fetch_pending (inv : invocation) : bool :=
  match call (race inv) with
  | None => true
  | Some _ => false
  end.

Definition fetches_outstanding (st : widget) : nat :=
  length (List.filter fetch_pending (invocations st)).

(* The submit control is enabled. *)
Definition submit_enabled (st : widget) : bool :=
  negb (button_disabled (document st)).

(** *** State updates *)

Definition with_document (d : Document) (st : widget) : widget :=
  {| phoneNumber := phoneNumber st; isLoading := isLoading st;
     document := d; invocations := invocations st; trace := trace st |}.

Definition with_phoneNumber (p : string) (st : widget) : widget :=
  {| phoneNumber := p; isLoading := isLoading st;
     document := document st; invocations := invocations st;
     trace := trace st |}.

Definition with_isLoading (b : bool) (st : widget) : widget :=
  {| phoneNumber := phoneNumber st; isLoading := b;
     document := document st; invocations := invocations st;
     trace := trace st |}.

Definition with_invocations (l : list invocation) (st : widget) : widget :=
  {| phoneNumber := phoneNumber st; isLoading := isLoading st;
     document := document st; invocations := l; trace := trace st |}.

Definition emit (e : effect) (st : widget) : widget :=
  {| phoneNumber := phoneNumber st; isLoading := isLoading st;
     document := document st; invocations := invocations st;
     trace := trace st ++ [e] |}.

Definition set_input_value (v : string) (d : Document) : Document :=
  {| input_value := v; input_disabled := input_disabled d;
     button_disabled := button_disabled d; error_text := error_text d;
     error_display := error_display d;
     buttonText_display := buttonText_display d;
     spinner_display := spinner_display d; toast_text := toast_text d;
     toast_class := toast_class d; overlays := overlays d |}.

Definition set_button_disabled (b : bool) (d : Document) : Document :=
  {| input_value := input_value d; input_disabled := input_disabled d;
     button_disabled := b; error_text := error_text d;
     error_display := error_display d;
     buttonText_display := buttonText_display d;
     spinner_display := spinner_display d; toast_text := toast_text d;
     toast_class := toast_class d; overlays := overlays d |}.

Definition set_error (text : string) (shown : display) (d : Document)
  : Document :=
  {| input_value := input_value d; input_disabled := input_disabled d;
     button_disabled := button_disabled d; error_text := text;
     error_display := shown;
     buttonText_display := buttonText_display d;
     spinner_display := spinner_display d; toast_text := toast_text d;
     toast_class := toast_class d; overlays := overlays d |}.

Definition set_loading_controls (text spinner : display)
    (button input : bool) (d : Document) : Document :=
  {| input_value := input_value d; input_disabled := input;
     button_disabled := button; error_text := error_text d;
     error_display := error_display d;
     buttonText_display := text;
     spinner_display := spinner; toast_text := toast_text d;
     toast_class := toast_class d; overlays := overlays d |}.

Definition set_toast (text class : string) (d : Document) : Document :=
  {| input_value := input_value d; input_disabled := input_disabled d;
     button_disabled := button_disabled d; error_text := error_text d;
     error_display := error_display d;
     buttonText_display := buttonText_display d;
     spinner_display := spinner_display d; toast_text := text;
     toast_class := class; overlays := overlays d |}.

Definition set_overlays (l : list popup) (d : Document) : Document :=
  {| input_value := input_value d; input_disabled := input_disabled d;
     button_disabled := button_disabled d; error_text := error_text d;
     error_display := error_display d;
     buttonText_display := buttonText_display d;
     spinner_display := spinner_display d; toast_text := toast_text d;
     toast_class := toast_class d; overlays := l |}.

(* The page as the HTML and the last two lines of the script leave it. *)
Definition initial_document : Document :=
  {| input_value := ""; input_disabled := false;
     button_disabled := true;
     error_text := ""; error_display := DisplayNone;
     buttonText_display := DisplayUnset; spinner_display := DisplayNone;
     toast_text := ""; toast_class := "toast"; overlays := [] |}.

Definition initial_widget : widget :=
  {| phoneNumber := ""; isLoading := false; document := initial_document;
     invocations := []; trace := [] |}.

(** *** The functions of the script *)

Section Controller.

Variable cfg : config.

Definition handlePhoneChange (value : string) (st : widget) : widget :=
  let sanitized := sanitize value in
  let st := with_phoneNumber sanitized st in
  let st :=
    if negb (Js.str_eq (input_value (document st)) sanitized)
    then with_document (set_input_value sanitized (document st)) st
    else st in
  let isValid := validatePhoneNumber sanitized in
  let hasValue := (0 <? String.length sanitized)%nat in
  let st :=
    if hasValue && negb isValid
    then with_document
           (set_error (phoneValidationError (TRANSLATIONS cfg)) DisplayBlock
                      (document st)) st
    else with_document
           (set_error (error_text (document st)) DisplayNone (document st))
           st in
  with_document
    (set_button_disabled (negb isValid || isLoading st) (document st)) st.

(* The timer that resets the class after 3000ms is the event
   [ToastExpires] below. *)
Definition showToast (text : string) (isError : bool) (st : widget)
  : widget :=
  let st :=
    with_document
      (set_toast text ("toast show" +:+ (if isError then " error" else ""))
                 (document st)) st in
  emit (ToastShown text isError) st.

Definition setLoading (loading : bool) (st : widget) : widget :=
  let st := with_isLoading loading st in
  if loading
  then with_document
         (set_loading_controls DisplayNone DisplayBlock true true
                               (document st)) st
  else with_document
         (set_loading_controls DisplayBlock DisplayNone
            (negb (validatePhoneNumber (phoneNumber st))) false
            (document st)) st.

(* The overlay is appended to the body; the phone field is filled in from
   [phoneNumber] when the markup is built. *)
Definition showManualEntryPopup (errorMessage : string) (st : widget)
  : widget :=
  let st :=
    with_document
      (set_overlays
         (overlays (document st) ++
          [{| popup_message := errorMessage;
              manual_phone := phoneNumber st |}])
         (document st)) st in
  emit (PopupShown errorMessage) st.

(* getElementById finds the first overlay in the document. *)
Definition closeManualEntryPopup (st : widget) : widget :=
  match overlays (document st) with
  | [] => st
  | _ :: rest =>
      emit PopupClosed
           (with_document (set_overlays rest (document st)) st)
  end.

(* One run of the manual form's submit listener, with the values the four
   editable fields hold. *)
Definition manual_form_submit (manual_name manual_address manual_postal
                               manual_city : string) (st : widget)
  : widget :=
  match overlays (document st) with
  | [] => st
  | first :: _ =>
      let data :=
        manualData (manual_phone first) manual_name manual_address
                   manual_postal manual_city in
      let st :=
        if embedded cfg
        then emit (PostMessage
                     {| msg_type := "deliverease-manual-data";
                        msg_data := ManualData data |} "*") st
        else st in
      let st := closeManualEntryPopup st in
      showToast "Address information submitted successfully!" false st
  end.

Definition rateLimitMessage : string :=
  "Address lookup service is temporarily busy. Please enter your address manually.".

Definition set_invocation (id : nat) (inv : invocation) (st : widget)
  : widget :=
  with_invocations (<[id := inv]> (invocations st)) st.

Definition set_stage (id : nat) (s : stage) (st : widget) : widget :=
  match invocations st !! id with
  | Some inv => set_invocation id {| race := race inv; at_stage := s |} st
  | None => st
  end.

(* handleSubmit up to its first await. *)
Definition handleSubmit (st : widget) : widget :=
  if negb (validatePhoneNumber (phoneNumber st)) || isLoading st
  then st
  else
    let st := setLoading true st in
    let st :=
      emit (FetchCall (API_URL cfg +:+ "/addresslookup/address") "POST"
              [("Content-Type", "application/json")]
              (JObject [("phone_number", JString (phoneNumber st))])) st in
    with_invocations
      (invocations st ++
       [{| race := callWithTimeout None 8000;
           at_stage := AwaitingLookup |}]) st.

Definition catch_block (error : JsError) (st : widget) : widget :=
  let st := emit (ConsoleError "Phone lookup error:" error) st in
  let errorMessage :=
    if Js.str_eq (message error) "ApiTimeoutError"
    then timeoutError (TRANSLATIONS cfg)
    else lookupFailed (TRANSLATIONS cfg) in
  if embedded cfg
  then emit (PostMessage
               {| msg_type := "deliverease-open-popup";
                  msg_data :=
                    ManualEntryRequest (phoneNumber st) errorMessage |}
               "*") st
  else showManualEntryPopup errorMessage st.

Definition finally_block (id : nat) (st : widget) : widget :=
  set_stage id Completed (setLoading false st).

(* handleSubmit from the moment callWithTimeout settles. *)
Definition after_lookup (id : nat) (r : settlement Response) (st : widget)
  : widget :=
  match r with
  | Rejected error => finally_block id (catch_block error st)
  | Fulfilled response =>
      if (status response =? 429) || (status response =? 503)
      then
        let st :=
          emit (ConsoleLog
                  "API rate limited or unavailable, showing manual entry")
               st in
        let st :=
          if embedded cfg
          then emit (PostMessage
                       {| msg_type := "deliverease-open-popup";
                          msg_data :=
                            ManualEntryRequest (phoneNumber st)
                                               rateLimitMessage |}
                       "*") st
          else showManualEntryPopup rateLimitMessage st in
        finally_block id st
      else if negb (ok response)
      then finally_block id
             (catch_block (Error "Address lookup failed") st)
      else set_stage id (AwaitingJson response) st
  end.

(* handleSubmit from the moment response.json() settles. *)
Definition after_json (id : nat) (r : settlement Json) (st : widget)
  : widget :=
  match r with
  | Rejected error => finally_block id (catch_block error st)
  | Fulfilled addressData =>
      let st :=
        if embedded cfg
        then emit (PostMessage
                     {| msg_type := "deliverease-open-popup";
                        msg_data :=
                          AddressFound (phoneNumber st) addressData |}
                     "*") st
        else st in
      let st := with_document (set_input_value "" (document st)) st in
      let st := with_phoneNumber "" st in
      let st := handlePhoneChange "" st in
      let st := showToast (addressFound (TRANSLATIONS cfg)) false st in
      finally_block id st
  end.

(* The paste listener's deferred callback. *)
Definition paste_callback (st : widget) : widget :=
  let value := input_value (document st) in
  let sanitized := sanitize value in
  if negb (Js.str_eq value sanitized)
  then handlePhoneChange sanitized
         (with_document (set_input_value sanitized (document st)) st)
  else st.

(** *** The event loop *)

Inductive event : Type :=
| UserInput (value : string)     (* the field now holds [value]; oninput *)
| PasteDeferred                  (* the paste listener's setTimeout(0) *)
| SubmitForm                     (* submit on #phoneForm *)
| FetchSettles (id : nat) (r : settlement Response)
| TimeoutElapses (id : nat)
| JsonSettles (id : nat)
| ManualFormSubmit (manual_name manual_address manual_postal
                    manual_city : string)
| ManualCancel                   (* Cancel button or click on the backdrop *)
| ToastExpires.

(* An event for the race of invocation [id]; handleSubmit goes on when the
   promise it awaits settles. *)
Definition deliver (id : nat) (ev : race_event Response) (st : widget)
  : widget :=
  match invocations st !! id with
  | None => st
  | Some inv =>
      let race' := race_step (race inv) ev in
      let st' :=
        set_invocation id {| race := race'; at_stage := at_stage inv |} st in
      match at_stage inv, returned (race inv), returned race' with
      | AwaitingLookup, None, Some r => after_lookup id r st'
      | _, _, _ => st'
      end
  end.

Definition step (st : widget) (ev : event) : widget :=
  match ev with
  | UserInput value =>
      handlePhoneChange value
        (with_document (set_input_value value (document st)) st)
  | PasteDeferred => paste_callback st
  | SubmitForm => handleSubmit st
  | FetchSettles id r => deliver id (CallSettles r) st
  | TimeoutElapses id => deliver id TimerElapses st
  | JsonSettles id =>
      match invocations st !! id with
      | Some {| race := _; at_stage := AwaitingJson response |} =>
          after_json id (json_body response) st
      | _ => st
      end
  | ManualFormSubmit manual_name manual_address manual_postal manual_city =>
      manual_form_submit manual_name manual_address manual_postal
                         manual_city st
  | ManualCancel => closeManualEntryPopup st
  | ToastExpires =>
      with_document
        (set_toast (toast_text (document st)) "toast" (document st)) st
  end.

Definition run (st : widget) (evs : list event) : widget :=
  fold_left step evs st.

End Controller.

(** ** Vocabulary of the properties *)

Definition decimal_digits : list ascii :=
  ["0"; "1"; "2"; "3"; "4"; "5"; "6"; "7"; "8"; "9"]%char.

Definition only_decimal_digits (s : string) : Prop :=
  Forall (fun c => c ∈ decimal_digits) (Js.chars s).

Definition no_space (s : string) : Prop := " "%char ∉ Js.chars s.

(* What happens to the lookup of one submission: the timer is due before
   fetch settles, or fetch settles first. *)
Inductive lookup_course : Type :=
| TimerFirst
| FetchFirst (r : settlement Response).

Definition submission_events (id : nat) (c : lookup_course) : list event :=
  match c with
  | TimerFirst => [SubmitForm; TimeoutElapses id]
  | FetchFirst r => [SubmitForm; FetchSettles id r; JsonSettles id]
  end.

(* One submission from the submit event to its end, nothing else happening
   in between. *)
Definition submission (cfg : config) (st : widget) (c : lookup_course)
  : widget :=
  run cfg st (submission_events (length (invocations st)) c).

(* The terminal outcomes, as the specification's response classifier names
   them, and the outcome of each course by the specification's rules. *)
Inductive outcome : Type :=
| Success (addressData : Json)
| RateLimited
| TimedOut
| GenericFailure.

Definition classify_exception (error : JsError) : outcome :=
  if Js.str_eq (message error) "ApiTimeoutError" then TimedOut
  else GenericFailure.

Definition outcome_of (c : lookup_course) : outcome :=
  match c with
  | TimerFirst => TimedOut
  | FetchFirst (Rejected error) => classify_exception error
  | FetchFirst (Fulfilled response) =>
      if (status response =? 429) || (status response =? 503)
      then RateLimited
      else if negb (ok response) then GenericFailure
      else match json_body response with
           | Fulfilled addressData => Success addressData
           | Rejected error => classify_exception error
           end
  end.

(* The advisory text of a manual-entry outcome. *)
Definition advisory (cfg : config) (o : outcome) : string :=
  match o with
  | Success _ => ""
  | RateLimited => rateLimitMessage
  | TimedOut => timeoutError (TRANSLATIONS cfg)
  | GenericFailure => lookupFailed (TRANSLATIONS cfg)
  end.

(* The message the parent frame is to receive for an outcome. *)
Definition message_for (cfg : config) (phone : string) (o : outcome)
  : OutgoingMessage :=
  match o with
  | Success addressData =>
      {| msg_type := "deliverease-open-popup";
         msg_data := AddressFound phone addressData |}
  | _ =>
      {| msg_type := "deliverease-open-popup";
         msg_data := ManualEntryRequest phone (advisory cfg o) |}
  end.

Fixpoint posted (efs : list effect) : list OutgoingMessage :=
  match efs with
  | [] => []
  | PostMessage m _ :: rest => m :: posted rest
  | _ :: rest => posted rest
  end.

Fixpoint toasts (efs : list effect) : list string :=
  match efs with
  | [] => []
  | ToastShown text _ :: rest => text :: toasts rest
  | _ :: rest => toasts rest
  end.

Fixpoint popups (efs : list effect) : list string :=
  match efs with
  | [] => []
  | PopupShown errorMessage :: rest => errorMessage :: popups rest
  | _ :: rest => popups rest
  end.

Fixpoint console_errors (efs : list effect) : list JsError :=
  match efs with
  | [] => []
  | ConsoleError _ error :: rest => error :: console_errors rest
  | _ :: rest => console_errors rest
  end.

(* The race is over: the async function has returned and its timer can no
   longer run. *)
Definition race_finished {A} (c : race_state A) : Prop :=
  is_Some (returned c) /\ is_Some (raced c)
  /\ forall delay, timeoutHandle c <> TimerArmed delay.

(* The exception a submission ends in, if it ends in one: the rejection of
   callWithTimeout, the Error thrown for a response that is not ok, or the
   rejection of response.json(). *)
Definition exception_of (c : lookup_course) : option JsError :=
  match c with
  | TimerFirst => Some (Error "ApiTimeoutError")
  | FetchFirst (Rejected error) => Some error
  | FetchFirst (Fulfilled response) =>
      if (status response =? 429) || (status response =? 503) then None
      else if negb (ok response) then Some (Error "Address lookup failed")
      else match json_body response with
           | Fulfilled _ => None
           | Rejected error => Some error
           end
  end.

(* What a run added to the trace. *)
Definition new_effects (st st' : widget) : list effect :=
  drop (length (trace st)) (trace st').

(* The part of the state the single-request discipline is about. *)
Definition core (st : widget) : string * bool * bool * list invocation :=
  (phoneNumber st, isLoading st, button_disabled (document st),
   invocations st).

Definition single_request (st : widget) : Prop :=
  requests_in_flight st = (if isLoading st then 1 else 0)%nat
  /\ button_disabled (document st)
     = negb (validatePhoneNumber (phoneNumber st)) || isLoading st.


(** ** Vocabulary of the further properties *)

(* The number of decimal digits among the characters of a string. *)
Definition digit_count (s : string) : nat :=
  length (List.filter (Regex.in_charset Regex.CsDigit) (Js.chars s)).

(* What the script, generated with [cfg], can do to the outside at all:
   it posts to the parent only when embedded, with target origin '*';
   it fetches only the lookup endpoint, with a number that passed
   validatePhoneNumber; it opens its own modal only when not embedded; it
   never shows an error toast. *)
Definition permitted (cfg : config) (e : effect) : Prop :=
  match e with
  | PostMessage m targetOrigin =>
      embedded cfg = true /\ targetOrigin = "*"
      /\ msg_type m = "deliverease-open-popup"
      /\ match msg_data m with
         | AddressFound _ _ | ManualEntryRequest _ _ => True
         | ManualData _ => False
         end
  | FetchCall url method headers body =>
      url = API_URL cfg +:+ "/addresslookup/address"
      /\ method = "POST"
      /\ exists number,
           body = JObject [("phone_number", JString number)]
           /\ validatePhoneNumber number = true
  | ToastShown _ isError => isError = false
  | PopupShown _ => embedded cfg = false
  | ConsoleLog _ | ConsoleError _ _ | PopupClosed => True
  end.

(* An invocation that still waits for its lookup has its race untouched and
   its timer armed; the race of any other invocation is over. *)
Definition settled_stage (inv : invocation) : Prop :=
  match at_stage inv with
  | AwaitingLookup => race inv = callWithTimeout None 8000
  | AwaitingJson _ | Completed => race_finished (race inv)
  end.

(* The event that brings a settlement of fetch, or the timer's turn, to the
   race of invocation [id]. *)
Definition lookup_event (id : nat) (ev : race_event Response) : event :=
  match ev with
  | CallSettles r => FetchSettles id r
  | TimerElapses => TimeoutElapses id
  end.

Definition timer_armed (inv : invocation) : bool :=
  match timeoutHandle (race inv) with
  | TimerArmed _ => true
  | TimerFired | TimerCleared => false
  end.

Definition armed_timers (st : widget) : nat :=
  length (List.filter timer_armed (invocations st)).

Definition timers_ok (st : widget) : Prop :=
  Forall settled_stage (invocations st).

(* What holds of the page whatever has happened so far, as far as the phone
   number is not concerned... *)
Record frame_ok (cfg : config) (st : widget) : Prop := {
  ok_trace : Forall (permitted cfg) (trace st);
  ok_overlays : embedded cfg = true -> overlays (document st) = [];
  ok_input : input_disabled (document st) = isLoading st;
  ok_spinner :
    spinner_display (document st)
    = (if isLoading st then DisplayBlock else DisplayNone);
  ok_button_text :
    buttonText_display (document st) = DisplayNone <-> isLoading st = true;
  ok_toast :
    toast_class (document st) = "toast"
    \/ toast_class (document st) = "toast show"
}.

(* ... and as far as it is: the field shows the stored number, which has
   only digits, and the validation error is up exactly when that number is
   neither empty nor valid. *)
Record phone_ok (cfg : config) (st : widget) : Prop := {
  ok_digits : only_decimal_digits (phoneNumber st);
  ok_field : input_value (document st) = phoneNumber st;
  ok_error :
    error_display (document st)
    = (if (0 <? String.length (phoneNumber st))%nat
          && negb (validatePhoneNumber (phoneNumber st))
       then DisplayBlock else DisplayNone);
  ok_error_text :
    error_display (document st) = DisplayBlock ->
    error_text (document st) = phoneValidationError (TRANSLATIONS cfg)
}.

Definition page_ok (cfg : config) (st : widget) : Prop :=
  frame_ok cfg st /\ phone_ok cfg st /\ timers_ok st.


(** ** The postal-code form (the React component ManualAddressForm)

    [length] of a JavaScript string counts UTF-16 code units, and the form
    compares it with 4, so here a string is the list of its code units. *)

Module PostalCodeForm.

Definition jsstring : Type := list N.

(* The component's state and what it has passed to its onSubmit prop. *)
Record form : Type := {
  postalCode : jsstring;
  onSubmit_calls : list jsstring
}.

(* useState("") *)
Definition initial : form := {| postalCode := []; onSubmit_calls := [] |}.

(* onChange={(e) => setPostalCode(e.target.value)} *)
Definition onChange (value : jsstring) (st : form) : form :=
  {| postalCode := value; onSubmit_calls := onSubmit_calls st |}.

Definition handleSubmit (st : form) : form :=
  if (4 <=? length (postalCode st))%nat
  then {| postalCode := postalCode st;
          onSubmit_calls := onSubmit_calls st ++ [postalCode st] |}
  else st.

(* disabled={isLoading || postalCode.length < 4} *)
Definition button_disabled (isLoading : bool) (st : form) : bool :=
  isLoading || (length (postalCode st) <? 4)%nat.

(* maxLength={4} *)
Definition maxLength : nat := 4.

Inductive event : Type :=
| Change (value : jsstring)
| Submit.

Definition step (st : form) (ev : event) : form :=
  match ev with
  | Change value => onChange value st
  | Submit => handleSubmit st
  end.

Definition run (st : form) (evs : list event) : form :=
  fold_left step evs st.

(* The edits the browser lets a user make in a field with maxLength. *)
Definition within_maxLength (ev : event) : Prop :=
  match ev with
  | Change value => (length value <= maxLength)%nat
  | Submit => True
  end.

End PostalCodeForm.

(** ** The build configuration (vite.config.ts) *)

Module ViteConfig.

(* The variables of process.env the configuration reads; [None] is an
   unset variable. *)
Record environment : Type := {
  DATABUTTON_PROJECT_ID : option string;
  DATABUTTON_SERVICE_TYPE : option string;
  DEVX_HOST : option string;
  DEVX_BASE_PATH : option string;
  UI_BASE_PATH : option string;
  ENV_API_PATH : option string;          (* process.env.API_PATH *)
  ENV_APP_TITLE : option string;         (* process.env.APP_TITLE *)
  DATABUTTON_APPNAME : option string;
  ENV_APP_FAVICON_LIGHT : option string; (* process.env.APP_FAVICON_LIGHT *)
  ENV_APP_FAVICON_DARK : option string   (* process.env.APP_FAVICON_DARK *)
}.

(* if (s): undefined and '' are falsy. *)
Definition truthy (v : option string) : bool :=
  match v with
  | Some (String _ _) => true
  | Some EmptyString | None => false
  end.

(* v || d *)
Definition or_default (v : option string) (d : string) : string :=
  match v with
  | Some (String c s) => String c s
  | Some EmptyString | None => d
  end.

(* s without its first n characters *)
Fixpoint skip (n : nat) (s : string) : string :=
  match n, s with
  | O, _ => s
  | S n', String _ s' => skip n' s'
  | S _, EmptyString => EmptyString
  end.

(* s.replace(pattern, replacement) for a pattern that is a string: the
   first occurrence only. The replacements of this file, 'ws' and '/', hold
   no '$', which replace would interpret. *)
Fixpoint replace_first (pattern replacement s : string) : string :=
  if String.prefix pattern s
  then replacement +:+ skip (String.length pattern) s
  else match s with
       | EmptyString => EmptyString
       | String c s' => String c (replace_first pattern replacement s')
       end.

Definition projectId (env : environment) : string :=
  or_default (DATABUTTON_PROJECT_ID env) "MISSING-PROJECT-ID".

Definition serviceType (env : environment) : string :=
  or_default (DATABUTTON_SERVICE_TYPE env) "devx".

Definition devxHost (env : environment) : string :=
  or_default (DEVX_HOST env) "https://api.databutton.com".

Definition devxBasePath (env : environment) : string :=
  or_default (DEVX_BASE_PATH env)
    ("/_projects/" +:+ projectId env +:+ "/dbtn/" +:+ serviceType env).

Definition APP_BASE_PATH (env : environment) : string :=
  or_default (UI_BASE_PATH env) (devxBasePath env +:+ "/ui").

Definition API_PATH (env : environment) : string :=
  or_default (ENV_API_PATH env) (devxBasePath env +:+ "/app").

Definition API_URL (env : environment) : string :=
  devxHost env +:+ API_PATH env +:+ "/routes".

Definition WS_API_URL (env : environment) : string :=
  replace_first "http" "ws" (devxHost env) +:+ API_PATH env +:+ "/routes".

(* The first truthy argument; throws when there is none. *)
Fixpoint coalesce (args : list (option string)) : JsError + string :=
  match args with
  | [] => inl (Error "All values are falsy.")
  | s :: rest =>
      match s with
      | Some (String c s') => inr (String c s')
      | Some EmptyString | None => coalesce rest
      end
  end.

Definition APP_TITLE (env : environment) : JsError + string :=
  coalesce [ENV_APP_TITLE env; DATABUTTON_APPNAME env; Some "Databutton"].

Definition APP_FAVICON_LIGHT (env : environment) : JsError + string :=
  coalesce [ENV_APP_FAVICON_LIGHT env; ENV_APP_FAVICON_DARK env;
            Some (replace_first "//" "/" (APP_BASE_PATH env +:+ "/light.ico"))].

Definition APP_FAVICON_DARK (env : environment) : JsError + string :=
  coalesce [ENV_APP_FAVICON_DARK env; ENV_APP_FAVICON_LIGHT env;
            Some (replace_first "//" "/" (APP_BASE_PATH env +:+ "/dark.ico"))].

(* No variable set. *)
Definition empty_environment : environment :=
  {| DATABUTTON_PROJECT_ID := None; DATABUTTON_SERVICE_TYPE := None;
     DEVX_HOST := None; DEVX_BASE_PATH := None; UI_BASE_PATH := None;
     ENV_API_PATH := None; ENV_APP_TITLE := None; DATABUTTON_APPNAME := None;
     ENV_APP_FAVICON_LIGHT := None; ENV_APP_FAVICON_DARK := None |}.

End ViteConfig.

(** ** Sample data *)

Definition sample_config (in_frame : bool) : config :=
  {| API_URL := "https://api.example.test";
     TRANSLATIONS := translations_en;
     embedded := in_frame |}.

(* The widget after the user has typed a valid number. *)
Definition typed_widget (cfg : config) : widget :=
  run cfg initial_widget [UserInput "12345678"].

Definition storgata : Json :=
  JObject [("street", JString "Storgata 1");
           ("postalCode", JString "0155");
           ("city", JString "Oslo")].

Definition response_200 : Response :=
  {| status := 200; json_body := Fulfilled storgata |}.

Definition response_429 : Response :=
  {| status := 429;
     json_body := Rejected {| error_name := "SyntaxError";
                              message := "Unexpected end of JSON input" |} |}.

(** * Properties *)

(** ** Validator and sanitizer *)

Section RegexFacts.

Import Regex.

Lemma test_never s : test_anchored RNever s = false.
Proof. induction s as [|c s IH]; [reflexivity | exact IH]. Qed.

Lemma test_alt r1 r2 s :
  test_anchored (RAlt r1 r2) s = test_anchored r1 s || test_anchored r2 s.
Proof.
  revert r1 r2. induction s as [|c s IH]; intros r1 r2; simpl.
  - reflexivity.
  - apply IH.
Qed.

Lemma test_seq_never r s : test_anchored (RSeq RNever r) s = false.
Proof. induction s as [|c s IH]; [reflexivity | exact IH]. Qed.

Lemma test_seq_empty r s :
  test_anchored (RSeq REmpty r) s = test_anchored r s.
Proof.
  destruct s as [|c s]; simpl; [reflexivity |].
  now rewrite test_alt, test_seq_never.
Qed.

Lemma test_repeat_set cs n s :
  test_anchored (RRepeat (RSet cs) n) s
  = (String.length s =? n)%nat && forallb (in_charset cs) (Js.chars s).
Proof.
  revert s. induction n as [|n IH]; intros [|c s]; simpl; try reflexivity.
  - apply test_never.
  - destruct (in_charset cs c); simpl.
    + rewrite test_seq_empty. apply IH.
    + rewrite test_seq_never. now rewrite andb_false_r.
Qed.

Lemma digit_set_spec c :
  in_charset CsDigit c = bool_decide (c ∈ decimal_digits).
Proof.
  destruct c as [[] [] [] [] [] [] [] []]; vm_compute; reflexivity.
Qed.

Lemma digit_range_is_digit_set c :
  in_charset (CsRange "0" "9") c = in_charset CsDigit c.
Proof. reflexivity. Qed.

Lemma forallb_digits s :
  forallb (in_charset CsDigit) (Js.chars s) = true <-> only_decimal_digits s.
Proof.
  unfold only_decimal_digits.
  induction (Js.chars s) as [|c l IH]; cbn [forallb].
  - split; [constructor | reflexivity].
  - rewrite andb_true_iff, IH, digit_set_spec, bool_decide_eq_true.
    split.
    + intros [H1 H2]. now constructor.
    + intros H. inversion H; subst. now split.
Qed.

Lemma replace_set_g_cons cs replacement c s :
  replace_set_g cs replacement (String c s)
  = if in_charset cs c
    then replacement +:+ replace_set_g cs replacement s
    else String c (replace_set_g cs replacement s).
Proof. reflexivity. Qed.

Lemma length_chars s : length (Js.chars s) = String.length s.
Proof. induction s as [|c s IH]; simpl; [reflexivity | now rewrite IH]. Qed.

End RegexFacts.

(** C7. validatePhoneNumber accepts exactly the strings of eight decimal
    digits: it is true for "12345678" and false for "1234567", "123456789"
    and "1234567a". *)
Theorem validatePhoneNumber_iff_eight_digits :
  (forall s : string,
      validatePhoneNumber s = true
      <-> String.length s = 8%nat /\ only_decimal_digits s)
  /\ validatePhoneNumber "12345678" = true
  /\ validatePhoneNumber "1234567" = false
  /\ validatePhoneNumber "123456789" = false
  /\ validatePhoneNumber "1234567a" = false.
Proof.
  split; [| repeat split; reflexivity].
  intros s. unfold validatePhoneNumber, norwegianPhoneRegex.
  rewrite test_repeat_set, andb_true_iff, forallb_digits, Nat.eqb_eq.
  reflexivity.
Qed.

Lemma sanitize_cons c s :
  sanitize (String c s)
  = if Regex.in_charset Regex.CsDigit c then String c (sanitize s)
    else sanitize s.
Proof.
  unfold sanitize. rewrite replace_set_g_cons.
  change (Regex.in_charset (Regex.CsNot (Regex.CsRange "0" "9")) c)
    with (negb (Regex.in_charset Regex.CsDigit c)).
  now destruct (Regex.in_charset Regex.CsDigit c).
Qed.

Lemma sanitize_only_digits x : only_decimal_digits (sanitize x).
Proof.
  unfold only_decimal_digits.
  induction x as [|c x IH]; [constructor |].
  rewrite sanitize_cons.
  destruct (Regex.in_charset Regex.CsDigit c) eqn:E; [| exact IH].
  simpl. constructor; [| exact IH].
  rewrite digit_set_spec in E. now apply bool_decide_eq_true in E.
Qed.

Lemma sanitize_fixes_digits s : only_decimal_digits s -> sanitize s = s.
Proof.
  unfold only_decimal_digits.
  induction s as [|c s IH]; intros H; [reflexivity |].
  simpl in H. inversion H as [|? ? Hc Hs]; subst.
  rewrite sanitize_cons, digit_set_spec.
  rewrite bool_decide_eq_true_2 by exact Hc.
  now rewrite IH.
Qed.

(* handlePhoneChange stores the sanitized value and shows it. *)
Lemma handlePhoneChange_stores cfg value st :
  phoneNumber (handlePhoneChange cfg value st) = sanitize value
  /\ input_value (document (handlePhoneChange cfg value st)) = sanitize value.
Proof.
  unfold handlePhoneChange. cbv zeta.
  cbn [with_phoneNumber document phoneNumber].
  destruct (Js.str_eq (input_value (document st)) (sanitize value)) eqn:E;
    cbn [negb];
    destruct ((0 <? String.length (sanitize value))%nat
              && negb (validatePhoneNumber (sanitize value)));
    split; try reflexivity.
  all: now apply String.eqb_eq in E.
Qed.

(** C8. The sanitizing replace of handlePhoneChange and of the paste
    listener leaves only decimal digits, and applying it twice is the same
    as applying it once; it is what a keystroke stores and shows, and what
    the paste listener leaves in the field. *)
Theorem sanitize_digits_idempotent (x : string) :
  only_decimal_digits (sanitize x)
  /\ sanitize (sanitize x) = sanitize x
  /\ (forall cfg st,
         let st' := step cfg st (UserInput x) in
         phoneNumber st' = sanitize x
         /\ input_value (document st') = sanitize x)
  /\ (forall cfg st,
         let pasted := with_document (set_input_value x (document st)) st in
         input_value (document (step cfg pasted PasteDeferred)) = sanitize x).
Proof.
  split; [apply sanitize_only_digits |].
  split; [apply sanitize_fixes_digits, sanitize_only_digits |].
  split.
  - intros cfg st. apply handlePhoneChange_stores.
  - intros cfg st. cbn [step]. unfold paste_callback. cbv zeta.
    cbn [with_document document set_input_value input_value].
    destruct (Js.str_eq x (sanitize x)) eqn:E; cbn [negb].
    + now apply String.eqb_eq in E.
    + rewrite (proj2 (handlePhoneChange_stores _ _ _)).
      apply sanitize_fixes_digits, sanitize_only_digits.
Qed.

(** ** The full-name split of the manual-entry form *)

Section SplitFacts.

Import Js.

Lemma split_nonempty sep s : split sep s <> [].
Proof.
  destruct s as [|c s]; simpl; [discriminate |].
  destruct (Ascii.eqb c sep); [discriminate |].
  destruct (split sep s); discriminate.
Qed.

Lemma or_empty_Some s : or_empty (Some s) = s.
Proof. now destruct s. Qed.

Lemma not_in_chars_cons sep c s :
  sep ∉ chars (String c s) -> Ascii.eqb c sep = false /\ sep ∉ chars s.
Proof.
  unfold chars; simpl. intros H. split.
  - apply Ascii.eqb_neq. intros ->. apply H. left.
  - intros Hin. apply H. now right.
Qed.

Lemma split_without_separator sep s : sep ∉ chars s -> split sep s = [s].
Proof.
  induction s as [|c s IH]; intros H; [reflexivity |].
  apply not_in_chars_cons in H as [Hc Hs].
  simpl. now rewrite Hc, (IH Hs).
Qed.

Lemma split_at_first_separator sep a b :
  sep ∉ chars a -> split sep (a +:+ String sep b) = a :: split sep b.
Proof.
  induction a as [|c a IH]; intros H; simpl.
  - now rewrite Ascii.eqb_refl.
  - apply not_in_chars_cons in H as [Hc Ha].
    now rewrite Hc, (IH Ha).
Qed.

Lemma join_split sep s : join (String sep "") (split sep s) = s.
Proof.
  induction s as [|c s IH]; [reflexivity |].
  simpl split. pose proof (split_nonempty sep s) as Hne.
  destruct (split sep s) as [|piece pieces]; [congruence |].
  destruct (Ascii.eqb c sep) eqn:E.
  - apply Ascii.eqb_eq in E as ->.
    change (join (String sep "") ("" :: piece :: pieces))
      with (String sep (join (String sep "") (piece :: pieces))).
    now rewrite IH.
  - destruct pieces as [|p2 rest].
    + simpl in *. now rewrite IH.
    + change (join (String sep "") (String c piece :: p2 :: rest))
        with (String c (join (String sep "") (piece :: p2 :: rest))).
      now rewrite IH.
Qed.

End SplitFacts.

(** C6. The submitted ManualEntryData has firstName the part of the full
    name before its first space (the whole name if it has none) and lastName
    the rest after that space (empty if there is none); "Ola Nordmann" gives
    "Ola" and "Nordmann", "Ola" gives "Ola" and "". *)
Theorem manualData_splits_on_first_space
    (phone name address postal city : string) :
  let data := manualData phone name address postal city in
  (no_space name -> md_firstName data = name /\ md_lastName data = "")
  /\ (forall first rest : string,
         no_space first -> name = first +:+ " " +:+ rest ->
         md_firstName data = first /\ md_lastName data = rest)
  /\ (let ola_nordmann := manualData phone "Ola Nordmann" address postal city in
      md_firstName ola_nordmann = "Ola" /\ md_lastName ola_nordmann = "Nordmann")
  /\ (let ola := manualData phone "Ola" address postal city in
      md_firstName ola = "Ola" /\ md_lastName ola = "").
Proof.
  cbn zeta. unfold manualData, no_space; cbn [md_firstName md_lastName].
  split; [| split; [| split; split; reflexivity]].
  - intros H. rewrite (split_without_separator _ _ H).
    split; [apply or_empty_Some | reflexivity].
  - intros first rest H ->.
    change (first +:+ " " +:+ rest) with (first +:+ String " " rest).
    rewrite (split_at_first_separator _ _ _ H).
    split; [apply or_empty_Some |].
    unfold Js.slice_from. cbn [drop]. rewrite or_empty_Some.
    apply join_split.
Qed.

Lemma manualData_splits_on_first_space_witness :
  let data := manualData "12345678" "Kari Nordmann Hansen" "Storgata 1"
                         "0155" "Oslo" in
  no_space "Kari"
  /\ md_firstName data = "Kari" /\ md_lastName data = "Nordmann Hansen".
Proof.
  assert (Hns : no_space "Kari")
    by (apply (bool_decide_unpack _); vm_compute; exact I).
  split; [exact Hns |].
  exact (proj1 (proj2 (manualData_splits_on_first_space
                         "12345678" "Kari Nordmann Hansen" "Storgata 1"
                         "0155" "Oslo"))
           "Kari" "Nordmann Hansen" Hns eq_refl).
Defined.

(** ** The timeout race *)

Section RaceFacts.

Context {A : Type}.
Implicit Types (c : race_state A) (p : promise A) (ev : race_event A)
               (s : settlement A).

Lemma finished_step c ev :
  race_finished c ->
  race_finished (race_step c ev)
  /\ race_observable (race_step c ev) = race_observable c.
Proof.
  intros (Hret & Hraced & Harmed).
  destruct c as [cl tp th rc rt]; simpl in *.
  destruct Hret as [r ->], Hraced as [w ->].
  destruct ev as [s|]; simpl.
  - split; [| reflexivity].
    repeat split; simpl; eauto.
  - destruct th as [delay| |]; simpl.
    + now destruct (Harmed delay).
    + split; [| reflexivity]. repeat split; simpl; eauto.
    + split; [| reflexivity]. repeat split; simpl; eauto.
Qed.

Lemma finished_run c evs :
  race_finished c ->
  race_finished (race_run c evs)
  /\ race_observable (race_run c evs) = race_observable c.
Proof.
  revert c. induction evs as [|ev evs IH]; intros c H; simpl.
  - now split.
  - destruct (finished_step c ev H) as [Hf Hobs].
    destruct (IH _ Hf) as [Hf' Hobs'].
    split; [exact Hf' | now rewrite Hobs'].
Qed.

Lemma finished_from_settled_call s timeoutMs :
  race_finished (callWithTimeout (Some s) timeoutMs)
  /\ returned (callWithTimeout (Some s) timeoutMs) = Some s
  /\ timeoutHandle (callWithTimeout (Some s) timeoutMs) = TimerCleared.
Proof.
  destruct s; simpl; repeat split; simpl; eauto; discriminate.
Qed.

Lemma finished_after_call_settles s timeoutMs :
  let c := race_step (callWithTimeout None timeoutMs) (CallSettles s) in
  race_finished c /\ returned c = Some s /\ timeoutHandle c = TimerCleared.
Proof.
  destruct s; simpl; repeat split; simpl; eauto; discriminate.
Qed.

Lemma finished_after_timer timeoutMs :
  let c := race_step (@callWithTimeout A None timeoutMs) TimerElapses in
  race_finished c
  /\ returned c = Some (Rejected (Error "ApiTimeoutError"))
  /\ timeoutHandle c = TimerFired.
Proof. simpl; repeat split; simpl; eauto; discriminate. Qed.

(* The state the race is in once the first of the two has settled. *)
Lemma race_decided p timeoutMs evs :
  let final := race_run (callWithTimeout p timeoutMs) evs in
  match first_to_settle p evs with
  | None => final = callWithTimeout None timeoutMs
  | Some (CallWins s) =>
      race_finished final /\ returned final = Some s
      /\ timeoutHandle final = TimerCleared
  | Some TimerWins =>
      race_finished final
      /\ returned final = Some (Rejected (Error "ApiTimeoutError"))
      /\ timeoutHandle final = TimerFired
  end.
Proof.
  intros final; subst final.
  destruct p as [s|]; cbn [first_to_settle].
  - destruct (finished_from_settled_call s timeoutMs) as (Hf & Hr & Ht).
    destruct (finished_run _ evs Hf) as [Hf' Hobs].
    unfold race_observable in Hobs. split; [exact Hf' |].
    split; congruence.
  - destruct evs as [|[s|] evs]; [reflexivity | |].
    + destruct (finished_after_call_settles s timeoutMs) as (Hf & Hr & Ht).
      destruct (finished_run _ evs Hf) as [Hf' Hobs].
      unfold race_observable in Hobs. split; [exact Hf' |].
      split; simpl in *; congruence.
    + destruct (finished_after_timer timeoutMs) as (Hf & Hr & Ht).
      destruct (finished_run _ evs Hf) as [Hf' Hobs].
      unfold race_observable in Hobs. split; [exact Hf' |].
      split; simpl in *; congruence.
Qed.

End RaceFacts.

(** C3, as the code has it. callWithTimeout settles with whichever of the
    call and the timer settles first: with a new Error 'ApiTimeoutError' and
    the timer fired when that is the timer, with the call's own value or
    error, unchanged, and the timer cleared when that is the call. So it
    rejects with a message 'ApiTimeoutError' exactly when the timer was
    first or the call itself was first and rejected with that message.
    Whatever the loser does later changes nothing a caller can see. *)
Theorem callWithTimeout_settles_with_first {A : Type}
    (p : promise A) (timeoutMs : Z) (evs : list (race_event A)) :
  let final := race_run (callWithTimeout p timeoutMs) evs in
  returned final
  = match first_to_settle p evs with
    | None => None
    | Some TimerWins => Some (Rejected (Error "ApiTimeoutError"))
    | Some (CallWins s) => Some s
    end
  /\ timeoutHandle final
     = match first_to_settle p evs with
       | None => TimerArmed timeoutMs
       | Some TimerWins => TimerFired
       | Some (CallWins _) => TimerCleared
       end
  /\ (rejects_with_message "ApiTimeoutError" (returned final)
      <-> first_to_settle p evs = Some TimerWins
          \/ exists error,
               first_to_settle p evs = Some (CallWins (Rejected error))
               /\ message error = "ApiTimeoutError")
  /\ (forall later : list (race_event A),
         first_to_settle p evs <> None ->
         race_observable (race_run final later) = race_observable final).
Proof.
  intros final. pose proof (race_decided p timeoutMs evs) as H.
  fold final in H.
  destruct (first_to_settle p evs) as [[s|]|].
  - destruct H as (Hf & Hr & Ht). repeat split; try assumption.
    + intros (error & Heq & Hm). right. exists error.
      split; [congruence | exact Hm].
    + intros [Habs | (error & Heq & Hm)]; [discriminate |].
      exists error. split; [congruence | exact Hm].
    + intros later _. apply finished_run, Hf.
  - destruct H as (Hf & Hr & Ht). repeat split; try assumption.
    + intros _. now left.
    + intros _. exists (Error "ApiTimeoutError"). now split.
    + intros later _. apply finished_run, Hf.
  - rewrite H. repeat split.
    + intros (error & Heq & _). discriminate.
    + intros [Habs | (error & Heq & _)]; discriminate.
    + intros later Habs. now destruct Habs.
Qed.

(* A call that resolves after the 8000ms timer has fired. *)
Lemma callWithTimeout_settles_with_first_witness :
  let final := race_run (callWithTimeout (None : promise Z) 8000)
                        [TimerElapses] in
  first_to_settle (None : promise Z) [TimerElapses] <> None
  /\ race_observable (race_run final [CallSettles (Fulfilled 10000)])
     = race_observable final.
Proof.
  assert (H : first_to_settle (None : promise Z) [TimerElapses] <> None)
    by discriminate.
  split; [exact H |].
  exact (proj2 (proj2 (proj2 (callWithTimeout_settles_with_first
                                (None : promise Z) 8000 [TimerElapses])))
           [CallSettles (Fulfilled 10000)] H).
Defined.

(** C3, as stated, fails: a call that settles first and rejects with an
    error whose message is 'ApiTimeoutError' makes callWithTimeout reject
    with that message although the timer never fired. *)
Lemma callWithTimeout_timeout_message_without_timer :
  let p : promise Z := None in
  let evs := [CallSettles (Rejected (Error "ApiTimeoutError"))] in
  let final := race_run (callWithTimeout p 8000) evs in
  ~ (rejects_with_message "ApiTimeoutError" (returned final)
     <-> first_to_settle p evs = Some TimerWins).
Proof.
  cbn zeta. intros [Hto _].
  assert (Habs : first_to_settle (None : promise Z)
                   [CallSettles (Rejected (Error "ApiTimeoutError"))]
                 = Some TimerWins).
  { apply Hto. exists (Error "ApiTimeoutError"). now split. }
  discriminate Habs.
Qed.


(** ** The single-request discipline *)

Section SingleRequest.

Variable cfg : config.

Lemma count_insert l i x y :
  l !! i = Some x ->
  (count_in_flight (<[i := y]> l) + (if in_flight x then 1 else 0)
   = count_in_flight l + (if in_flight y then 1 else 0))%nat.
Proof.
  unfold count_in_flight. revert i.
  induction l as [|z l IH]; intros [|i] H; try discriminate.
  - injection H as ->. cbn [List.filter insert list_insert].
    destruct (in_flight x), (in_flight y); cbn [length]; lia.
  - cbn [lookup list_lookup] in H. specialize (IH i H).
    change (<[S i := y]> (z :: l)) with (z :: <[i := y]> l).
    cbn [List.filter]. destruct (in_flight z); cbn [length]; lia.
Qed.

Lemma count_app l inv :
  count_in_flight (l ++ [inv])
  = (count_in_flight l + (if in_flight inv then 1 else 0))%nat.
Proof.
  unfold count_in_flight. rewrite List.filter_app, length_app.
  cbn [List.filter]. now destruct (in_flight inv).
Qed.

(* The discipline reads only the core of the state. *)
Lemma single_request_of_core st ph ld bd invs :
  core st = (ph, ld, bd, invs) ->
  single_request st
  <-> count_in_flight invs = (if ld then 1 else 0)%nat
      /\ bd = negb (validatePhoneNumber ph) || ld.
Proof. unfold core. intros [= <- <- <- <-]. reflexivity. Qed.

Lemma single_request_same_core st st' :
  core st' = core st -> single_request st -> single_request st'.
Proof.
  intros H.
  rewrite (single_request_of_core st' _ _ _ _ H).
  now rewrite (single_request_of_core st _ _ _ _ eq_refl).
Qed.

(** The functions that touch neither the two variables, nor the button,
    nor the running calls. *)

Lemma core_emit e st : core (emit e st) = core st.
Proof. reflexivity. Qed.

Lemma core_showToast text isError st :
  core (showToast text isError st) = core st.
Proof. reflexivity. Qed.

Lemma core_showManualEntryPopup text st :
  core (showManualEntryPopup text st) = core st.
Proof. reflexivity. Qed.

Lemma core_closeManualEntryPopup st :
  core (closeManualEntryPopup st) = core st.
Proof.
  unfold closeManualEntryPopup. now destruct (overlays (document st)).
Qed.

Lemma core_manual_form_submit n a p c st :
  core (manual_form_submit cfg n a p c st) = core st.
Proof.
  unfold manual_form_submit.
  destruct (overlays (document st)) as [|first rest] eqn:E;
    [reflexivity |].
  rewrite core_showToast, core_closeManualEntryPopup.
  now destruct (embedded cfg).
Qed.

Lemma core_catch_block error st : core (catch_block cfg error st) = core st.
Proof. unfold catch_block. now destruct (embedded cfg). Qed.

Lemma core_handlePhoneChange value st :
  core (handlePhoneChange cfg value st)
  = (sanitize value, isLoading st,
     negb (validatePhoneNumber (sanitize value)) || isLoading st,
     invocations st).
Proof.
  unfold handlePhoneChange, core. cbv zeta.
  destruct (negb (Js.str_eq (input_value (document (with_phoneNumber
                                                       (sanitize value) st)))
                            (sanitize value)));
    destruct ((0 <? String.length (sanitize value))%nat
              && negb (validatePhoneNumber (sanitize value)));
    reflexivity.
Qed.

Lemma core_setLoading loading st :
  core (setLoading loading st)
  = (phoneNumber st, loading,
     (if loading then true
      else negb (validatePhoneNumber (phoneNumber st))),
     invocations st).
Proof. unfold setLoading, core. now destruct loading. Qed.

Lemma core_set_invocation id inv st :
  core (set_invocation id inv st)
  = (phoneNumber st, isLoading st, button_disabled (document st),
     <[id := inv]> (invocations st)).
Proof. reflexivity. Qed.

Lemma core_set_stage id inv s st :
  invocations st !! id = Some inv ->
  core (set_stage id s st)
  = (phoneNumber st, isLoading st, button_disabled (document st),
     <[id := {| race := race inv; at_stage := s |}]> (invocations st)).
Proof. unfold set_stage. now intros ->. Qed.

(** The steps keep the discipline. *)

Lemma single_request_handlePhoneChange value st :
  single_request st -> single_request (handlePhoneChange cfg value st).
Proof.
  rewrite (single_request_of_core _ _ _ _ _
             (core_handlePhoneChange value st)).
  rewrite (single_request_of_core st _ _ _ _ eq_refl).
  intros [Hc _]. now split.
Qed.

Lemma single_request_handleSubmit st :
  single_request st -> single_request (handleSubmit cfg st).
Proof.
  unfold handleSubmit.
  destruct (negb (validatePhoneNumber (phoneNumber st)) || isLoading st)
    eqn:G; [trivial |].
  apply orb_false_elim in G as [_ Hl].
  rewrite (single_request_of_core st _ _ _ _ eq_refl).
  rewrite Hl. intros [Hc _].
  apply (single_request_of_core _ (phoneNumber st) true true
           (invocations st ++
            [{| race := callWithTimeout None 8000;
                at_stage := AwaitingLookup |}])); [reflexivity |].
  rewrite count_app, Hc. split; [reflexivity | now rewrite orb_true_r].
Qed.

(* The invocation [id] in flight in [st0] ends; [st] is [st0] after the
   branch it took, with the same calls running. *)
Lemma single_request_finally id inv st0 st :
  single_request st0 ->
  invocations st0 !! id = Some inv -> in_flight inv = true ->
  invocations st = invocations st0 ->
  single_request (finally_block id st).
Proof.
  rewrite (single_request_of_core st0 _ _ _ _ eq_refl).
  intros [Hc _] Hinv Hfl Heq.
  pose proof (count_insert (invocations st0) id inv
                {| race := race inv; at_stage := Completed |} Hinv) as Hn.
  rewrite Hfl in Hn. cbn [in_flight at_stage] in Hn.
  assert (Hone : count_in_flight (invocations st0) = 1%nat)
    by (destruct (isLoading st0); lia).
  assert (Hinv' : invocations (setLoading false st) !! id = Some inv)
    by (cbn [setLoading with_isLoading with_document invocations];
        now rewrite Heq).
  unfold finally_block.
  rewrite (single_request_of_core _ _ _ _ _
             (core_set_stage id inv Completed _ Hinv')).
  cbn [setLoading with_isLoading with_document invocations phoneNumber
       isLoading document button_disabled set_loading_controls].
  rewrite Heq. split; [lia | now rewrite orb_false_r].
Qed.

Lemma single_request_set_stage id inv s st :
  single_request st ->
  invocations st !! id = Some inv ->
  in_flight {| race := race inv; at_stage := s |} = in_flight inv ->
  single_request (set_stage id s st).
Proof.
  rewrite (single_request_of_core st _ _ _ _ eq_refl).
  intros [Hc Hb] Hinv Hfl.
  pose proof (count_insert (invocations st) id inv
                {| race := race inv; at_stage := s |} Hinv) as Hn.
  rewrite Hfl in Hn.
  rewrite (single_request_of_core _ _ _ _ _ (core_set_stage id inv s st Hinv)).
  split; [| exact Hb]. destruct (in_flight inv); lia.
Qed.

Lemma invocations_catch_block error st :
  invocations (catch_block cfg error st) = invocations st.
Proof. unfold catch_block. now destruct (embedded cfg). Qed.

Lemma invocations_handlePhoneChange value st :
  invocations (handlePhoneChange cfg value st) = invocations st.
Proof.
  pose proof (core_handlePhoneChange value st) as H.
  unfold core in H. now injection H.
Qed.

Lemma single_request_after_lookup id inv r st :
  single_request st ->
  invocations st !! id = Some inv -> in_flight inv = true ->
  single_request (after_lookup cfg id r st).
Proof.
  intros Hs Hinv Hfl. unfold after_lookup.
  destruct r as [response|error].
  - destruct ((status response =? 429) || (status response =? 503)).
    + apply (single_request_finally id inv st _ Hs Hinv Hfl).
      now destruct (embedded cfg).
    + destruct (negb (ok response)).
      * apply (single_request_finally id inv st _ Hs Hinv Hfl).
        apply invocations_catch_block.
      * apply (single_request_set_stage id inv _ st Hs Hinv).
        now rewrite Hfl.
  - apply (single_request_finally id inv st _ Hs Hinv Hfl).
    apply invocations_catch_block.
Qed.

Lemma single_request_after_json id inv r st :
  single_request st ->
  invocations st !! id = Some inv -> in_flight inv = true ->
  single_request (after_json cfg id r st).
Proof.
  intros Hs Hinv Hfl. unfold after_json.
  destruct r as [addressData|error].
  - apply (single_request_finally id inv st _ Hs Hinv Hfl).
    cbv zeta. cbn [showToast emit with_document invocations].
    rewrite invocations_handlePhoneChange.
    now destruct (embedded cfg).
  - apply (single_request_finally id inv st _ Hs Hinv Hfl).
    apply invocations_catch_block.
Qed.

Lemma single_request_deliver id ev st :
  single_request st -> single_request (deliver cfg id ev st).
Proof.
  intros Hs. unfold deliver.
  destruct (invocations st !! id) as [inv|] eqn:Hinv; [| exact Hs].
  cbv zeta.
  set (inv' := {| race := race_step (race inv) ev;
                  at_stage := at_stage inv |}).
  assert (Hs' : single_request (set_invocation id inv' st)).
  { revert Hs.
    rewrite (single_request_of_core st _ _ _ _ eq_refl).
    rewrite (single_request_of_core _ _ _ _ _
               (core_set_invocation id inv' st)).
    intros [Hc Hb].
    pose proof (count_insert (invocations st) id inv inv' Hinv) as Hn.
    split; [| exact Hb].
    change (in_flight inv') with (in_flight inv) in Hn.
    destruct (in_flight inv); lia. }
  destruct (at_stage inv) eqn:Hst; try exact Hs'.
  destruct (returned (race inv)); [exact Hs' |].
  destruct (returned (race_step (race inv) ev)) as [r|]; [| exact Hs'].
  apply (single_request_after_lookup id inv' r _ Hs').
  - unfold set_invocation. cbn [invocations with_invocations].
    apply list_lookup_insert_eq. now apply lookup_lt_Some in Hinv.
  - unfold in_flight, inv'. cbn [at_stage]. now rewrite ?Hst.
Qed.

Lemma single_request_step st ev :
  single_request st -> single_request (step cfg st ev).
Proof.
  intros Hs. destruct ev; cbn [step].
  - apply single_request_handlePhoneChange.
    revert Hs. now apply single_request_same_core.
  - unfold paste_callback. cbv zeta.
    destruct (negb (Js.str_eq (input_value (document st))
                              (sanitize (input_value (document st)))));
      [| exact Hs].
    apply single_request_handlePhoneChange.
    revert Hs. now apply single_request_same_core.
  - now apply single_request_handleSubmit.
  - now apply single_request_deliver.
  - now apply single_request_deliver.
  - destruct (invocations st !! id) as [[rc [| response |]]|] eqn:Hinv;
      try exact Hs.
    now apply (single_request_after_json id _ _ st Hs Hinv).
  - revert Hs. apply single_request_same_core, core_manual_form_submit.
  - revert Hs. apply single_request_same_core, core_closeManualEntryPopup.
  - revert Hs. now apply single_request_same_core.
Qed.

Lemma single_request_run st evs :
  single_request st -> single_request (run cfg st evs).
Proof.
  revert st. induction evs as [|ev evs IH]; intros st Hs; [exact Hs |].
  apply IH, single_request_step, Hs.
Qed.

Lemma single_request_initially : single_request initial_widget.
Proof. split; reflexivity. Qed.

End SingleRequest.

(** C9. In every state the widget can reach there is at most one lookup
    request in flight, that is, at most one handleSubmit call waiting for
    its lookup, and there is one exactly while isLoading is set;
    while it is set the submit control is disabled and handleSubmit returns
    without starting a request; while it is not set the submit control is
    enabled exactly when the stored phone number is valid. *)
Theorem one_request_in_flight (cfg : config) (evs : list event) :
  let st := run cfg initial_widget evs in
  (requests_in_flight st <= 1)%nat
  /\ (requests_in_flight st = 1%nat <-> isLoading st = true)
  /\ (isLoading st = true ->
      submit_enabled st = false /\ handleSubmit cfg st = st)
  /\ (isLoading st = false ->
      submit_enabled st = validatePhoneNumber (phoneNumber st)).
Proof.
  intros st.
  destruct (single_request_run cfg initial_widget evs
              single_request_initially) as [Hc Hb].
  fold st in Hc, Hb. unfold submit_enabled. rewrite Hb.
  split; [| split; [| split]].
  - rewrite Hc. destruct (isLoading st); lia.
  - rewrite Hc. destruct (isLoading st); split; congruence.
  - intros Hl. unfold handleSubmit. rewrite Hl, !orb_true_r. now split.
  - intros Hl. rewrite Hl, orb_false_r. apply negb_involutive.
Qed.

(* A valid number typed and submitted: the request is in flight; a second
   submit changes nothing. *)
Lemma one_request_in_flight_witness :
  let cfg := sample_config true in
  let st := run cfg initial_widget [UserInput "12345678"; SubmitForm] in
  isLoading st = true
  /\ submit_enabled st = false /\ handleSubmit cfg st = st.
Proof.
  assert (H : isLoading (run (sample_config true) initial_widget
                           [UserInput "12345678"; SubmitForm]) = true)
    by (vm_compute; reflexivity).
  split; [exact H |].
  exact (proj1 (proj2 (proj2 (one_request_in_flight
                                (sample_config true)
                                [UserInput "12345678"; SubmitForm]))) H).
Defined.

(** ** One submission *)

Lemma run_cons cfg st ev evs :
  run cfg st (ev :: evs) = run cfg (step cfg st ev) evs.
Proof. reflexivity. Qed.

Lemma run_nil cfg st : run cfg st [] = st.
Proof. reflexivity. Qed.

Lemma lookup_fresh {X} (l : list X) (x : X) : (l ++ [x]) !! length l = Some x.
Proof. now apply list_lookup_middle. Qed.

Lemma insert_fresh {X} (l : list X) (x y : X) :
  <[length l := y]> (l ++ [x]) = l ++ [y].
Proof.
  replace (length l) with (length l + 0)%nat at 1 by lia.
  now rewrite insert_app_r.
Qed.

Lemma validate_empty : validatePhoneNumber "" = false.
Proof. reflexivity. Qed.

Lemma timeout_message_is_timeout :
  Js.str_eq (message (Error "ApiTimeoutError")) "ApiTimeoutError" = true.
Proof. reflexivity. Qed.

Lemma lookup_failed_is_not_timeout :
  Js.str_eq (message (Error "Address lookup failed")) "ApiTimeoutError" = false.
Proof. reflexivity. Qed.

(* handlePhoneChange('') on a field that is already empty. *)
Lemma handlePhoneChange_empty cfg st :
  input_value (document st) = "" ->
  handlePhoneChange cfg "" st
  = with_document
      (set_button_disabled true
         (set_error (error_text (document st)) DisplayNone (document st)))
      (with_phoneNumber "" st).
Proof.
  intros H. unfold handlePhoneChange. cbv zeta.
  change (sanitize "") with "".
  cbn [with_phoneNumber document]. rewrite H.
  change (Js.str_eq "" "") with true. cbn [negb].
  rewrite validate_empty. reflexivity.
Qed.

(* Bring a state whose fields are known into the form of a record again. *)
Ltac widget_norm_in E :=
  cbv [step handleSubmit deliver after_lookup after_json finally_block
       catch_block set_stage set_invocation
       with_document with_phoneNumber with_isLoading with_invocations emit
       set_input_value set_button_disabled set_error set_loading_controls
       set_toast set_overlays showToast setLoading showManualEntryPopup
       phoneNumber isLoading document invocations trace
       input_value input_disabled button_disabled error_text error_display
       buttonText_display spinner_display toast_text toast_class overlays
       race at_stage status json_body
       race_step callWithTimeout microtasks after_await promise_race settle
       clearTimeout call timeoutPromise timeoutHandle raced returned] in E;
  cbn [negb orb andb] in E.

(* Evaluate the script in an equation [E]; the conditions the script
   branches on are rewritten with the hypotheses that decide them. *)
Ltac widget_step_in E :=
  first
    [ progress widget_norm_in E
    | match type of E with
      | context [(_ ++ [_]) !! length _] => rewrite lookup_fresh in E
      | context [<[length _ := _]> (_ ++ [_])] => rewrite insert_fresh in E
      | context [validatePhoneNumber ""] => rewrite validate_empty in E
      | context [Js.str_eq (message (Error "ApiTimeoutError")) "ApiTimeoutError"] =>
          rewrite timeout_message_is_timeout in E
      | context [Js.str_eq (message (Error "Address lookup failed")) "ApiTimeoutError"] =>
          rewrite lookup_failed_is_not_timeout in E
      | context [handlePhoneChange _ "" _] =>
          rewrite handlePhoneChange_empty in E by reflexivity
      end
    | match goal with
      | Hc : ?cond = true |- _ =>
          match type of E with context [cond] => rewrite Hc in E end
      | Hc : ?cond = false |- _ =>
          match type of E with context [cond] => rewrite Hc in E end
      end ].

Ltac eval_run_in E :=
  unfold submission, submission_events in E;
  cbn [invocations] in E;
  repeat (rewrite run_cons in E; repeat widget_step_in E);
  rewrite run_nil in E.

Ltac summary_done :=
  cbn [trace phoneNumber isLoading document input_value button_disabled
       overlays length];
  rewrite <- ?app_assoc; rewrite ?drop_app_length;
  cbn [app posted popups toasts console_errors message_for advisory
       andb negb json_body status];
  rewrite ?app_nil_r;
  repeat split; try reflexivity; try discriminate.

(* Everything the properties below need to know about one submission. *)
Lemma submission_summary cfg st c :
  isLoading st = false ->
  validatePhoneNumber (phoneNumber st) = true ->
  let st' := submission cfg st c in
  let efs := new_effects st st' in
  let o := outcome_of c in
  let manual := match o with Success _ => false | _ => true end in
  trace st' = trace st ++ efs
  /\ posted efs
     = (if embedded cfg then [message_for cfg (phoneNumber st) o] else [])
  /\ popups efs
     = (if manual && negb (embedded cfg) then [advisory cfg o] else [])
  /\ toasts efs
     = (if manual then [] else [addressFound (TRANSLATIONS cfg)])
  /\ console_errors efs
     = match exception_of c with Some error => [error] | None => [] end
  /\ isLoading st' = false
  /\ phoneNumber st' = (if manual then phoneNumber st else "")
  /\ input_value (document st')
     = (if manual then input_value (document st) else "")
  /\ button_disabled (document st') = negb manual
  /\ overlays (document st')
     = overlays (document st) ++
       (if manual && negb (embedded cfg)
        then [{| popup_message := advisory cfg o;
                 manual_phone := phoneNumber st |}]
        else [])
  /\ (o = RateLimited ->
      efs = [FetchCall (API_URL cfg +:+ "/addresslookup/address") "POST"
               [("Content-Type", "application/json")]
               (JObject [("phone_number", JString (phoneNumber st))]);
             ConsoleLog
               "API rate limited or unavailable, showing manual entry";
             if embedded cfg
             then PostMessage
                    {| msg_type := "deliverease-open-popup";
                       msg_data :=
                         ManualEntryRequest (phoneNumber st)
                                            rateLimitMessage |}
                    "*"
             else PopupShown rateLimitMessage]).
Proof.
  intros H1 H2 st'.
  assert (E : st' = submission cfg st c) by reflexivity. clearbody st'.
  destruct st as [ph ld doc invs tr]. simpl in H1, H2. subst ld.
  destruct doc.
  unfold new_effects, outcome_of, exception_of, classify_exception.
  destruct (embedded cfg) eqn:Hemb;
    (destruct c as [|[[stt body]|e]];
     [ | cbn [status json_body];
         destruct ((stt =? 429) || (stt =? 503)) eqn:Elimit;
         [ | destruct (ok {| status := stt; json_body := body |}) eqn:Eok;
             [ destruct body as [a|e];
               [ | destruct (Js.str_eq (message e) "ApiTimeoutError")
                     eqn:Emsg ] | ] ]
       | destruct (Js.str_eq (message e) "ApiTimeoutError") eqn:Emsg ]);
    eval_run_in E; subst st'; summary_done.
Qed.

(* A response that arrives after the timeout path has run finds nobody
   waiting: the page, the two variables and the trace stay as they are, and
   no request is counted as in flight although the abandoned fetch was
   still running. *)
Lemma late_response_changes_nothing cfg st r :
  isLoading st = false ->
  validatePhoneNumber (phoneNumber st) = true ->
  let id := length (invocations st) in
  let st1 := submission cfg st TimerFirst in
  let st2 := step cfg st1 (FetchSettles id r) in
  phoneNumber st2 = phoneNumber st1
  /\ isLoading st2 = isLoading st1
  /\ document st2 = document st1
  /\ trace st2 = trace st1
  /\ requests_in_flight st2 = requests_in_flight st1.
Proof.
  intros H1 H2 id st1 st2.
  assert (E1 : st1 = submission cfg st TimerFirst) by reflexivity.
  assert (E2 : st2 = run cfg st1 [FetchSettles id r]) by reflexivity.
  clearbody st1 st2. subst id.
  destruct st as [ph ld doc invs tr]. simpl in H1, H2. subst ld.
  destruct doc. cbn [invocations] in E2.
  destruct (embedded cfg) eqn:Hemb; eval_run_in E1; subst st1;
    eval_run_in E2; subst st2;
    unfold requests_in_flight; cbn [phoneNumber isLoading document trace
                                    invocations];
    rewrite !count_app; repeat split; reflexivity.
Qed.

(* The request counted as in flight is the one handleSubmit waits for. A
   fetch the timeout has abandoned is not cancelled: after a timeout the
   user can submit again while it is still running. *)
Example abandoned_fetch_still_outstanding :
  let st := run (sample_config true) initial_widget
                [UserInput "12345678"; SubmitForm; TimeoutElapses 0;
                 SubmitForm] in
  requests_in_flight st = 1%nat /\ fetches_outstanding st = 2%nat.
Proof. split; vm_compute; reflexivity. Qed.

(** ** What a submission does *)

(** C1, as the code has it. While the widget is embedded, a submission
    makes exactly one postMessage call, the deliverease-open-popup message
    of its outcome, and opens no local modal for any outcome; it shows no
    toast for RateLimited, TimedOut and GenericFailure, and on Success it
    still shows the local address-found toast. *)
Theorem embedded_submission_posts_once
    (cfg : config) (st : widget) (c : lookup_course) :
  embedded cfg = true ->
  isLoading st = false ->
  validatePhoneNumber (phoneNumber st) = true ->
  let st' := submission cfg st c in
  let efs := new_effects st st' in
  trace st' = trace st ++ efs
  /\ posted efs = [message_for cfg (phoneNumber st) (outcome_of c)]
  /\ msg_type (message_for cfg (phoneNumber st) (outcome_of c))
     = "deliverease-open-popup"
  /\ popups efs = []
  /\ overlays (document st') = overlays (document st)
  /\ toasts efs
     = match outcome_of c with
       | Success _ => [addressFound (TRANSLATIONS cfg)]
       | RateLimited | TimedOut | GenericFailure => []
       end.
Proof.
  intros He H1 H2.
  destruct (submission_summary cfg st c H1 H2)
    as (Ht & Hp & Hpop & Hto & _ & _ & _ & _ & _ & Hov & _).
  cbn zeta. rewrite He in Hp, Hpop, Hov.
  rewrite andb_false_r in Hpop, Hov. rewrite app_nil_r in Hov.
  repeat split; try assumption.
  - now destruct (outcome_of c).
  - rewrite Hto. now destruct (outcome_of c).
Qed.

Lemma embedded_submission_posts_once_witness :
  let cfg := sample_config true in
  let st := typed_widget cfg in
  let efs := new_effects st (submission cfg st TimerFirst) in
  embedded cfg = true
  /\ isLoading st = false
  /\ validatePhoneNumber (phoneNumber st) = true
  /\ posted efs
     = [{| msg_type := "deliverease-open-popup";
           msg_data :=
             ManualEntryRequest "12345678"
               "Request took too long. Please try again or enter the address manually." |}]
  /\ popups efs = [] /\ toasts efs = [].
Proof.
  pose proof (embedded_submission_posts_once
                (sample_config true) (typed_widget (sample_config true))
                TimerFirst eq_refl eq_refl eq_refl)
    as (_ & Hp & _ & Hpop & _ & Hto).
  split; [reflexivity |]. split; [reflexivity |]. split; [reflexivity |].
  split; [exact Hp |]. split; [exact Hpop | exact Hto].
Defined.

(** C1, as stated, fails: embedded, a lookup that answers 200 with a JSON
    body ends in Success and the script still calls showToast. *)
Lemma embedded_success_renders_toast :
  let cfg := sample_config true in
  let st := typed_widget cfg in
  let efs := new_effects st (submission cfg st
                               (FetchFirst (Fulfilled response_200))) in
  embedded cfg = true
  /\ outcome_of (FetchFirst (Fulfilled response_200)) = Success storgata
  /\ ~ (toasts efs = [] /\ popups efs = [] /\ length (posted efs) = 1%nat).
Proof.
  repeat split. intros [Habs _]. vm_compute in Habs. discriminate Habs.
Qed.

(** C2. A lookup response with status 429 or 503 is RateLimited: nothing is
    thrown, the catch block does not run, and the manual-entry path is taken
    with the fixed rate-limit advisory, by postMessage to the parent when
    embedded and by the local modal otherwise. *)
Theorem rate_limited_opens_manual_entry
    (cfg : config) (st : widget) (response : Response) :
  isLoading st = false ->
  validatePhoneNumber (phoneNumber st) = true ->
  status response = 429 \/ status response = 503 ->
  let c := FetchFirst (Fulfilled response) in
  let st' := submission cfg st c in
  outcome_of c = RateLimited
  /\ exception_of c = None
  /\ trace st'
     = trace st ++
       [FetchCall (API_URL cfg +:+ "/addresslookup/address") "POST"
          [("Content-Type", "application/json")]
          (JObject [("phone_number", JString (phoneNumber st))]);
        ConsoleLog "API rate limited or unavailable, showing manual entry";
        if embedded cfg
        then PostMessage
               {| msg_type := "deliverease-open-popup";
                  msg_data :=
                    ManualEntryRequest (phoneNumber st) rateLimitMessage |}
               "*"
        else PopupShown rateLimitMessage]
  /\ console_errors (new_effects st st') = []
  /\ overlays (document st')
     = (if embedded cfg then overlays (document st)
        else overlays (document st) ++
             [{| popup_message := rateLimitMessage;
                 manual_phone := phoneNumber st |}])
  /\ isLoading st' = false
  /\ rateLimitMessage
     = "Address lookup service is temporarily busy. Please enter your address manually.".
Proof.
  intros H1 H2 Hst.
  assert (Hlimit : (status response =? 429) || (status response =? 503)
                   = true).
  { destruct Hst as [-> | ->]; reflexivity. }
  pose proof (submission_summary cfg st (FetchFirst (Fulfilled response))
                H1 H2) as (Ht & _ & _ & _ & Hce & Hl & _ & _ & _ & Hov & Hefs).
  cbn zeta in *. unfold outcome_of, exception_of in *. rewrite Hlimit in *.
  cbn [andb advisory] in Hov.
  repeat split; try assumption.
  - rewrite Ht. now rewrite Hefs.
  - rewrite Hov. destruct (embedded cfg); [apply app_nil_r | reflexivity].
Qed.

Lemma rate_limited_opens_manual_entry_witness :
  let cfg := sample_config false in
  let st := typed_widget cfg in
  let st' := submission cfg st (FetchFirst (Fulfilled response_429)) in
  isLoading st = false
  /\ validatePhoneNumber (phoneNumber st) = true
  /\ (status response_429 = 429 \/ status response_429 = 503)
  /\ console_errors (new_effects st st') = []
  /\ overlays (document st')
     = [{| popup_message := rateLimitMessage; manual_phone := "12345678" |}].
Proof.
  pose proof (rate_limited_opens_manual_entry
                (sample_config false) (typed_widget (sample_config false))
                response_429 eq_refl eq_refl (or_introl eq_refl))
    as (_ & _ & _ & Hce & Hov & _).
  split; [reflexivity |]. split; [reflexivity |].
  split; [left; reflexivity |]. split; [exact Hce | exact Hov].
Defined.

Lemma outcome_of_exception c error :
  exception_of c = Some error -> outcome_of c = classify_exception error.
Proof.
  destruct c as [|[response|e]]; cbn [exception_of outcome_of].
  - now intros [= <-].
  - destruct ((status response =? 429) || (status response =? 503));
      [discriminate |].
    destruct (negb (ok response)); [now intros [= <-] |].
    destruct (json_body response); [discriminate | now intros [= <-]].
  - now intros [= <-].
Qed.

Lemma generated_texts_differ apiUrl defaultLanguage detected in_frame cfg :
  generateStandaloneWidget apiUrl defaultLanguage detected in_frame = Some cfg ->
  timeoutError (TRANSLATIONS cfg) <> lookupFailed (TRANSLATIONS cfg).
Proof.
  unfold generateStandaloneWidget, translations.
  destruct (Js.str_eq (select_lang defaultLanguage detected) "no").
  - intros [= <-]. discriminate.
  - destruct (Js.str_eq (select_lang defaultLanguage detected) "en");
      [| discriminate].
    intros [= <-]. discriminate.
Qed.

(** C4. A submission that ends in an exception is TimedOut exactly when the
    exception's message is 'ApiTimeoutError' and GenericFailure otherwise;
    both take the manual-entry path, the first with the timeout text and the
    second with the lookup-failed text, and the two texts differ in every
    widget the generator emits. *)
Theorem exception_classified_by_message
    (cfg : config) (st : widget) (c : lookup_course) (error : JsError) :
  isLoading st = false ->
  validatePhoneNumber (phoneNumber st) = true ->
  exception_of c = Some error ->
  let efs := new_effects st (submission cfg st c) in
  let text := if Js.str_eq (message error) "ApiTimeoutError"
              then timeoutError (TRANSLATIONS cfg)
              else lookupFailed (TRANSLATIONS cfg) in
  (outcome_of c = TimedOut <-> message error = "ApiTimeoutError")
  /\ (outcome_of c = GenericFailure <-> message error <> "ApiTimeoutError")
  /\ console_errors efs = [error]
  /\ posted efs
     = (if embedded cfg
        then [{| msg_type := "deliverease-open-popup";
                 msg_data := ManualEntryRequest (phoneNumber st) text |}]
        else [])
  /\ popups efs = (if embedded cfg then [] else [text])
  /\ toasts efs = []
  /\ (forall apiUrl defaultLanguage detected in_frame,
         generateStandaloneWidget apiUrl defaultLanguage detected in_frame
         = Some cfg ->
         timeoutError (TRANSLATIONS cfg) <> lookupFailed (TRANSLATIONS cfg)).
Proof.
  intros H1 H2 Hex.
  pose proof (submission_summary cfg st c H1 H2)
    as (_ & Hp & Hpop & Hto & Hce & _).
  pose proof (outcome_of_exception c error Hex) as Ho.
  cbn zeta in *. rewrite Hex in Hce. rewrite Ho in *.
  unfold classify_exception in *. unfold Js.str_eq in *.
  destruct (String.eqb (message error) "ApiTimeoutError") eqn:E.
  - apply String.eqb_eq in E.
    repeat split; try assumption; try congruence; try discriminate;
      try (now destruct (embedded cfg)).
    intros apiUrl defaultLanguage detected in_frame.
    apply (generated_texts_differ apiUrl defaultLanguage detected in_frame).
  - apply String.eqb_neq in E.
    repeat split; try assumption; try congruence; try discriminate;
      try (now destruct (embedded cfg)).
    intros apiUrl defaultLanguage detected in_frame.
    apply (generated_texts_differ apiUrl defaultLanguage detected in_frame).
Qed.

Lemma exception_classified_by_message_witness :
  let cfg := sample_config true in
  let st := typed_widget cfg in
  let efs := new_effects st (submission cfg st TimerFirst) in
  isLoading st = false
  /\ validatePhoneNumber (phoneNumber st) = true
  /\ exception_of TimerFirst = Some (Error "ApiTimeoutError")
  /\ generateStandaloneWidget "https://api.example.test" (Some "en") "nb-NO"
                              true = Some cfg
  /\ console_errors efs = [Error "ApiTimeoutError"]
  /\ timeoutError (TRANSLATIONS cfg) <> lookupFailed (TRANSLATIONS cfg).
Proof.
  pose proof (exception_classified_by_message
                (sample_config true) (typed_widget (sample_config true))
                TimerFirst (Error "ApiTimeoutError") eq_refl eq_refl eq_refl)
    as (_ & _ & Hce & _ & _ & _ & Hdiff).
  split; [reflexivity |]. split; [reflexivity |]. split; [reflexivity |].
  split; [reflexivity |]. split; [exact Hce |].
  exact (Hdiff "https://api.example.test" (Some "en") "nb-NO" true eq_refl).
Defined.

(** C5. A lookup response with a status in the success range and a JSON
    body that parses gives Success with the parsed body as its AddressData,
    and when embedded that body is the address field of the
    deliverease-open-popup message, as it was parsed. *)
Theorem success_passes_address_through
    (cfg : config) (st : widget) (response : Response) (addressData : Json) :
  isLoading st = false ->
  validatePhoneNumber (phoneNumber st) = true ->
  ok response = true ->
  json_body response = Fulfilled addressData ->
  let c := FetchFirst (Fulfilled response) in
  let efs := new_effects st (submission cfg st c) in
  outcome_of c = Success addressData
  /\ console_errors efs = []
  /\ posted efs
     = (if embedded cfg
        then [{| msg_type := "deliverease-open-popup";
                 msg_data := AddressFound (phoneNumber st) addressData |}]
        else []).
Proof.
  intros H1 H2 Hok Hbody.
  pose proof (submission_summary cfg st (FetchFirst (Fulfilled response))
                H1 H2) as (_ & Hp & _ & _ & Hce & _).
  assert (Hlimit : (status response =? 429) || (status response =? 503)
                   = false).
  { unfold ok in Hok. apply andb_true_iff in Hok as [_ Hle].
    apply Z.leb_le in Hle.
    apply orb_false_intro; apply Z.eqb_neq; lia. }
  cbn zeta in *. unfold outcome_of, exception_of in *.
  rewrite Hlimit, Hok, Hbody in *. cbn [negb] in *.
  repeat split; assumption.
Qed.

Lemma success_passes_address_through_witness :
  let cfg := sample_config true in
  let st := typed_widget cfg in
  let efs := new_effects st
               (submission cfg st (FetchFirst (Fulfilled response_200))) in
  isLoading st = false
  /\ validatePhoneNumber (phoneNumber st) = true
  /\ ok response_200 = true
  /\ json_body response_200 = Fulfilled storgata
  /\ posted efs
     = [{| msg_type := "deliverease-open-popup";
           msg_data := AddressFound "12345678" storgata |}].
Proof.
  pose proof (success_passes_address_through
                (sample_config true) (typed_widget (sample_config true))
                response_200 storgata eq_refl eq_refl eq_refl eq_refl)
    as (_ & _ & Hp).
  split; [reflexivity |]. split; [reflexivity |]. split; [reflexivity |].
  split; [reflexivity | exact Hp].
Defined.

(** C10. After a submission that ends in Success the phone field and the
    stored phone number are empty and the submit control is disabled, the
    empty string not being a valid number; after RateLimited, TimedOut or
    GenericFailure the phone number is as it was entered. *)
Theorem phone_reset_on_success_only
    (cfg : config) (st : widget) (c : lookup_course) :
  isLoading st = false ->
  validatePhoneNumber (phoneNumber st) = true ->
  let st' := submission cfg st c in
  match outcome_of c with
  | Success _ =>
      input_value (document st') = ""
      /\ phoneNumber st' = ""
      /\ submit_enabled st' = false
      /\ validatePhoneNumber "" = false
  | RateLimited | TimedOut | GenericFailure =>
      input_value (document st') = input_value (document st)
      /\ phoneNumber st' = phoneNumber st
  end.
Proof.
  intros H1 H2.
  pose proof (submission_summary cfg st c H1 H2)
    as (_ & _ & _ & _ & _ & _ & Hp & Hi & Hb & _).
  cbn zeta in *. unfold submit_enabled.
  destruct (outcome_of c); rewrite ?Hb; repeat split; assumption.
Qed.

Lemma phone_reset_on_success_only_witness :
  let cfg := sample_config false in
  let st := typed_widget cfg in
  let st' := submission cfg st (FetchFirst (Fulfilled response_200)) in
  isLoading st = false
  /\ validatePhoneNumber (phoneNumber st) = true
  /\ phoneNumber st = "12345678"
  /\ input_value (document st') = ""
  /\ phoneNumber st' = ""
  /\ submit_enabled st' = false.
Proof.
  pose proof (phone_reset_on_success_only
                (sample_config false) (typed_widget (sample_config false))
                (FetchFirst (Fulfilled response_200)) eq_refl eq_refl)
    as (Hi & Hp & Hs & _).
  split; [reflexivity |]. split; [reflexivity |]. split; [reflexivity |].
  split; [exact Hi |]. split; [exact Hp | exact Hs].
Defined.

(** * Further properties *)

Lemma sanitize_length x : String.length (sanitize x) = digit_count x.
Proof.
  unfold digit_count. induction x as [|c x IH]; [reflexivity |].
  rewrite sanitize_cons. cbn [Js.chars list_ascii_of_string List.filter].
  fold (Js.chars x).
  destruct (Regex.in_charset Regex.CsDigit c); cbn [String.length length];
    now rewrite IH.
Qed.

Lemma validate_sanitized x :
  validatePhoneNumber (sanitize x) = (digit_count x =? 8)%nat.
Proof.
  unfold validatePhoneNumber, norwegianPhoneRegex.
  rewrite test_repeat_set, sanitize_length.
  destruct (digit_count x =? 8)%nat; [| reflexivity].
  apply forallb_digits, sanitize_only_digits.
Qed.

(* What handlePhoneChange leaves behind, field by field. *)
Lemma handlePhoneChange_view cfg value st :
  let sanitized := sanitize value in
  let invalid := (0 <? String.length sanitized)%nat
                 && negb (validatePhoneNumber sanitized) in
  handlePhoneChange cfg value st
  = {| phoneNumber := sanitized;
       isLoading := isLoading st;
       document :=
         set_button_disabled
           (negb (validatePhoneNumber sanitized) || isLoading st)
           (set_error
              (if invalid then phoneValidationError (TRANSLATIONS cfg)
               else error_text (document st))
              (if invalid then DisplayBlock else DisplayNone)
              (set_input_value sanitized (document st)));
       invocations := invocations st;
       trace := trace st |}.
Proof.
  cbv zeta. unfold handlePhoneChange. cbv zeta.
  destruct st as [ph ld doc invs tr].
  destruct doc as [iv idis bdis et ed btd sd tt tc ov].
  cbn [with_phoneNumber with_document document phoneNumber isLoading
       invocations trace input_value].
  destruct (Js.str_eq iv (sanitize value)) eqn:E; cbn [negb].
  - apply String.eqb_eq in E. subst iv.
    destruct ((0 <? String.length (sanitize value))%nat
              && negb (validatePhoneNumber (sanitize value))); reflexivity.
  - destruct ((0 <? String.length (sanitize value))%nat
              && negb (validatePhoneNumber (sanitize value))); reflexivity.
Qed.

(** X1. A keystroke enables the submit control exactly when the typed text
    holds eight decimal digits, whatever else it holds, and no request is
    awaited. *)
Theorem typing_enables_submit_iff_eight_digits
    (cfg : config) (x : string) (st : widget) :
  submit_enabled (step cfg st (UserInput x)) = true
  <-> digit_count x = 8%nat /\ isLoading st = false.
Proof.
  cbn [step]. unfold submit_enabled. rewrite handlePhoneChange_view.
  cbn [document set_button_disabled button_disabled with_document isLoading].
  rewrite validate_sanitized.
  rewrite negb_true_iff, orb_false_iff, negb_false_iff, Nat.eqb_eq.
  reflexivity.
Qed.

(** X2. After a keystroke the validation error is hidden when the typed
    text holds no decimal digit or exactly eight of them; otherwise it is
    visible and reads phoneValidationError. *)
Theorem validation_error_shown_iff_wrong_digit_count
    (cfg : config) (x : string) (st : widget) :
  let d := document (step cfg st (UserInput x)) in
  if (digit_count x =? 0)%nat || (digit_count x =? 8)%nat
  then error_display d = DisplayNone
  else error_display d = DisplayBlock
       /\ error_text d = phoneValidationError (TRANSLATIONS cfg).
Proof.
  cbn [step]. rewrite handlePhoneChange_view.
  rewrite validate_sanitized, sanitize_length.
  cbn [document set_button_disabled set_error error_display error_text].
  destruct (digit_count x) as [|n] eqn:En; [reflexivity |].
  change (0 <? S n)%nat with true. change (S n =? 0)%nat with false.
  cbn [andb orb].
  destruct (S n =? 8)%nat; cbn [negb]; [reflexivity | now split].
Qed.

(** ** What holds of the page at all times *)

Section PageFacts.

Variable cfg : config.

Lemma frame_ok_same st st' :
  isLoading st' = isLoading st -> document st' = document st ->
  trace st' = trace st -> frame_ok cfg st -> frame_ok cfg st'.
Proof.
  intros Hl Hd Ht [H1 H2 H3 H4 H5 H6].
  constructor; rewrite ?Hl, ?Hd, ?Ht; assumption.
Qed.

Lemma phone_ok_same st st' :
  phoneNumber st' = phoneNumber st -> document st' = document st ->
  phone_ok cfg st -> phone_ok cfg st'.
Proof.
  intros Hp Hd [H1 H2 H3 H4].
  constructor; rewrite ?Hp, ?Hd; assumption.
Qed.

Lemma frame_ok_emit e st :
  permitted cfg e -> frame_ok cfg st -> frame_ok cfg (emit e st).
Proof.
  intros He [H1 H2 H3 H4 H5 H6]. constructor; try assumption.
  cbn [emit trace]. apply Forall_app. split; [assumption |].
  now constructor.
Qed.

Lemma phone_ok_emit e st : phone_ok cfg st -> phone_ok cfg (emit e st).
Proof. now apply phone_ok_same. Qed.

Lemma frame_ok_showToast text st :
  frame_ok cfg st -> frame_ok cfg (showToast text false st).
Proof.
  intros [H1 H2 H3 H4 H5 H6]. constructor; try assumption.
  - cbn [showToast emit trace with_document]. apply Forall_app.
    split; [assumption |]. now constructor.
  - now right.
Qed.

Lemma phone_ok_showToast text isError st :
  phone_ok cfg st -> phone_ok cfg (showToast text isError st).
Proof. intros [H1 H2 H3 H4]. constructor; assumption. Qed.

Lemma frame_ok_setLoading loading st :
  frame_ok cfg st -> frame_ok cfg (setLoading loading st).
Proof.
  intros [H1 H2 H3 H4 H5 H6].
  destruct loading; constructor; try assumption; try reflexivity.
  - cbn. tauto.
  - cbn. split; discriminate.
Qed.

Lemma phone_ok_setLoading loading st :
  phone_ok cfg st -> phone_ok cfg (setLoading loading st).
Proof.
  intros [H1 H2 H3 H4]. destruct loading; constructor; assumption.
Qed.

Lemma frame_ok_showManualEntryPopup text st :
  embedded cfg = false ->
  frame_ok cfg st -> frame_ok cfg (showManualEntryPopup text st).
Proof.
  intros He [H1 H2 H3 H4 H5 H6]. constructor; try assumption.
  - cbn [showManualEntryPopup emit trace with_document]. apply Forall_app.
    split; [assumption |]. now constructor.
  - intros Habs. congruence.
Qed.

Lemma phone_ok_showManualEntryPopup text st :
  phone_ok cfg st -> phone_ok cfg (showManualEntryPopup text st).
Proof. intros [H1 H2 H3 H4]. constructor; assumption. Qed.

Lemma frame_ok_closeManualEntryPopup st :
  frame_ok cfg st -> frame_ok cfg (closeManualEntryPopup st).
Proof.
  intros H. unfold closeManualEntryPopup.
  destruct (overlays (document st)) as [|first rest] eqn:Eo; [exact H |].
  destruct H as [H1 H2 H3 H4 H5 H6]. constructor; try assumption.
  - cbn [emit trace with_document]. apply Forall_app.
    split; [assumption |]. now constructor.
  - intros He. specialize (H2 He). congruence.
Qed.

Lemma phone_ok_closeManualEntryPopup st :
  phone_ok cfg st -> phone_ok cfg (closeManualEntryPopup st).
Proof.
  intros H. unfold closeManualEntryPopup.
  destruct (overlays (document st)); [exact H |].
  destruct H as [H1 H2 H3 H4]. constructor; assumption.
Qed.

(* While embedded no modal is open, so the manual form's listener cannot
   run there. *)
Lemma frame_ok_manual_form_submit n a p c st :
  frame_ok cfg st -> frame_ok cfg (manual_form_submit cfg n a p c st).
Proof.
  intros H. unfold manual_form_submit.
  destruct (overlays (document st)) as [|first rest] eqn:Eo; [exact H |].
  destruct (embedded cfg) eqn:He.
  - pose proof (ok_overlays _ _ H He). congruence.
  - now apply frame_ok_showToast, frame_ok_closeManualEntryPopup.
Qed.

Lemma phone_ok_manual_form_submit n a p c st :
  phone_ok cfg st -> phone_ok cfg (manual_form_submit cfg n a p c st).
Proof.
  intros H. unfold manual_form_submit.
  destruct (overlays (document st)) as [|first rest] eqn:Eo; [exact H |].
  apply phone_ok_showToast, phone_ok_closeManualEntryPopup.
  destruct (embedded cfg); [now apply phone_ok_emit | exact H].
Qed.

Lemma frame_ok_catch_block error st :
  frame_ok cfg st -> frame_ok cfg (catch_block cfg error st).
Proof.
  intros H. unfold catch_block. cbv zeta.
  destruct (embedded cfg) eqn:He.
  - apply frame_ok_emit; [now cbn | now apply frame_ok_emit].
  - apply frame_ok_showManualEntryPopup; [exact He |].
    now apply frame_ok_emit.
Qed.

Lemma phone_ok_catch_block error st :
  phone_ok cfg st -> phone_ok cfg (catch_block cfg error st).
Proof.
  intros H. unfold catch_block. cbv zeta.
  destruct (embedded cfg).
  - now apply phone_ok_emit, phone_ok_emit.
  - now apply phone_ok_showManualEntryPopup, phone_ok_emit.
Qed.

(* handlePhoneChange puts the phone number, the field and the error in
   order, whatever they were. *)
Lemma frame_ok_handlePhoneChange value st :
  frame_ok cfg st -> frame_ok cfg (handlePhoneChange cfg value st).
Proof.
  intros [H1 H2 H3 H4 H5 H6]. rewrite handlePhoneChange_view.
  constructor; assumption.
Qed.

Lemma phone_ok_handlePhoneChange value st :
  phone_ok cfg (handlePhoneChange cfg value st).
Proof.
  rewrite handlePhoneChange_view. constructor.
  - apply sanitize_only_digits.
  - reflexivity.
  - cbn [document phoneNumber set_button_disabled set_error error_display].
    reflexivity.
  - cbn [document phoneNumber set_button_disabled set_error error_display
         error_text].
    destruct ((0 <? String.length (sanitize value))%nat
              && negb (validatePhoneNumber (sanitize value)));
      [reflexivity | discriminate].
Qed.

Lemma frame_ok_set_stage id s st :
  frame_ok cfg st -> frame_ok cfg (set_stage id s st).
Proof.
  unfold set_stage. destruct (invocations st !! id); [| trivial].
  now apply frame_ok_same.
Qed.

Lemma phone_ok_set_stage id s st :
  phone_ok cfg st -> phone_ok cfg (set_stage id s st).
Proof.
  unfold set_stage. destruct (invocations st !! id); [| trivial].
  now apply phone_ok_same.
Qed.

Lemma frame_ok_finally id st :
  frame_ok cfg st -> frame_ok cfg (finally_block id st).
Proof. intros H. now apply frame_ok_set_stage, frame_ok_setLoading. Qed.

Lemma phone_ok_finally id st :
  phone_ok cfg st -> phone_ok cfg (finally_block id st).
Proof. intros H. now apply phone_ok_set_stage, phone_ok_setLoading. Qed.

Lemma frame_ok_after_lookup id r st :
  frame_ok cfg st -> frame_ok cfg (after_lookup cfg id r st).
Proof.
  intros H. unfold after_lookup. destruct r as [response|error].
  - destruct ((status response =? 429) || (status response =? 503)).
    + cbv zeta. apply frame_ok_finally.
      destruct (embedded cfg) eqn:He.
      * apply frame_ok_emit; [now cbn | now apply frame_ok_emit].
      * apply frame_ok_showManualEntryPopup; [exact He |].
        now apply frame_ok_emit.
    + destruct (negb (ok response)).
      * now apply frame_ok_finally, frame_ok_catch_block.
      * now apply frame_ok_set_stage.
  - now apply frame_ok_finally, frame_ok_catch_block.
Qed.

Lemma phone_ok_after_lookup id r st :
  phone_ok cfg st -> phone_ok cfg (after_lookup cfg id r st).
Proof.
  intros H. unfold after_lookup. destruct r as [response|error].
  - destruct ((status response =? 429) || (status response =? 503)).
    + cbv zeta. apply phone_ok_finally.
      destruct (embedded cfg).
      * now apply phone_ok_emit, phone_ok_emit.
      * now apply phone_ok_showManualEntryPopup, phone_ok_emit.
    + destruct (negb (ok response)).
      * now apply phone_ok_finally, phone_ok_catch_block.
      * now apply phone_ok_set_stage.
  - now apply phone_ok_finally, phone_ok_catch_block.
Qed.

Lemma frame_ok_after_json id r st :
  frame_ok cfg st -> frame_ok cfg (after_json cfg id r st).
Proof.
  intros H. unfold after_json. destruct r as [addressData|error].
  - cbv zeta. apply frame_ok_finally, frame_ok_showToast,
      frame_ok_handlePhoneChange.
    assert (H' : frame_ok cfg
                   (if embedded cfg
                    then emit (PostMessage
                                 {| msg_type := "deliverease-open-popup";
                                    msg_data :=
                                      AddressFound (phoneNumber st)
                                                   addressData |} "*") st
                    else st)).
    { destruct (embedded cfg) eqn:He; [| exact H].
      apply frame_ok_emit; [now cbn | exact H]. }
    destruct H' as [H1 H2 H3 H4 H5 H6]. constructor; assumption.
  - now apply frame_ok_finally, frame_ok_catch_block.
Qed.

Lemma phone_ok_after_json id r st :
  phone_ok cfg st -> phone_ok cfg (after_json cfg id r st).
Proof.
  intros H. unfold after_json. destruct r as [addressData|error].
  - cbv zeta. apply phone_ok_finally, phone_ok_showToast,
      phone_ok_handlePhoneChange.
  - now apply phone_ok_finally, phone_ok_catch_block.
Qed.

Lemma frame_ok_handleSubmit st :
  frame_ok cfg st -> frame_ok cfg (handleSubmit cfg st).
Proof.
  intros H. unfold handleSubmit.
  destruct (negb (validatePhoneNumber (phoneNumber st)) || isLoading st)
    eqn:G; [exact H |].
  apply orb_false_elim in G as [Hv _]. apply negb_false_iff in Hv.
  cbv zeta.
  eapply frame_ok_same;
    [ | | | apply (frame_ok_emit
                     (FetchCall (API_URL cfg +:+ "/addresslookup/address")
                        "POST" [("Content-Type", "application/json")]
                        (JObject [("phone_number",
                                   JString (phoneNumber st))])));
            [ | apply (frame_ok_setLoading true), H ] ];
    try reflexivity.
  cbn. repeat split. exists (phoneNumber st). now split.
Qed.

Lemma phone_ok_handleSubmit st :
  phone_ok cfg st -> phone_ok cfg (handleSubmit cfg st).
Proof.
  intros H. unfold handleSubmit.
  destruct (negb (validatePhoneNumber (phoneNumber st)) || isLoading st);
    [exact H |].
  destruct H as [H1 H2 H3 H4]. constructor; assumption.
Qed.

Lemma frame_ok_deliver id ev st :
  frame_ok cfg st -> frame_ok cfg (deliver cfg id ev st).
Proof.
  intros H. unfold deliver.
  destruct (invocations st !! id) as [inv|]; [| exact H]. cbv zeta.
  assert (H' : frame_ok cfg
                 (set_invocation id
                    {| race := race_step (race inv) ev;
                       at_stage := at_stage inv |} st))
    by now apply (frame_ok_same st).
  destruct (at_stage inv); try exact H'.
  destruct (returned (race inv)); [exact H' |].
  destruct (returned (race_step (race inv) ev)); [| exact H'].
  now apply frame_ok_after_lookup.
Qed.

Lemma phone_ok_deliver id ev st :
  phone_ok cfg st -> phone_ok cfg (deliver cfg id ev st).
Proof.
  intros H. unfold deliver.
  destruct (invocations st !! id) as [inv|]; [| exact H]. cbv zeta.
  assert (H' : phone_ok cfg
                 (set_invocation id
                    {| race := race_step (race inv) ev;
                       at_stage := at_stage inv |} st))
    by now apply (phone_ok_same st).
  destruct (at_stage inv); try exact H'.
  destruct (returned (race inv)); [exact H' |].
  destruct (returned (race_step (race inv) ev)); [| exact H'].
  now apply phone_ok_after_lookup.
Qed.

Lemma frame_ok_step st ev :
  frame_ok cfg st -> frame_ok cfg (step cfg st ev).
Proof.
  intros H. destruct ev; cbn [step].
  - apply frame_ok_handlePhoneChange.
    destruct H as [H1 H2 H3 H4 H5 H6]. constructor; assumption.
  - unfold paste_callback. cbv zeta.
    destruct (negb (Js.str_eq (input_value (document st))
                              (sanitize (input_value (document st)))));
      [| exact H].
    apply frame_ok_handlePhoneChange.
    destruct H as [H1 H2 H3 H4 H5 H6]. constructor; assumption.
  - now apply frame_ok_handleSubmit.
  - now apply frame_ok_deliver.
  - now apply frame_ok_deliver.
  - destruct (invocations st !! id) as [[rc [| response |]]|]; try exact H.
    now apply frame_ok_after_json.
  - now apply frame_ok_manual_form_submit.
  - now apply frame_ok_closeManualEntryPopup.
  - destruct H as [H1 H2 H3 H4 H5 H6]. constructor; try assumption.
    now left.
Qed.

Lemma phone_ok_step st ev :
  phone_ok cfg st -> phone_ok cfg (step cfg st ev).
Proof.
  intros H. destruct ev; cbn [step].
  - apply phone_ok_handlePhoneChange.
  - unfold paste_callback. cbv zeta.
    destruct (negb (Js.str_eq (input_value (document st))
                              (sanitize (input_value (document st)))));
      [| exact H].
    apply phone_ok_handlePhoneChange.
  - now apply phone_ok_handleSubmit.
  - now apply phone_ok_deliver.
  - now apply phone_ok_deliver.
  - destruct (invocations st !! id) as [[rc [| response |]]|]; try exact H.
    now apply phone_ok_after_json.
  - now apply phone_ok_manual_form_submit.
  - now apply phone_ok_closeManualEntryPopup.
  - destruct H as [H1 H2 H3 H4]. constructor; assumption.
Qed.

End PageFacts.

(** ** Timers do not outlive their submission *)

Section TimerFacts.

Variable cfg : config.

(* The list of invocations after set_stage. *)
Lemma invocations_set_stage id s st :
  invocations (set_stage id s st)
  = match invocations st !! id with
    | Some inv =>
        <[id := {| race := race inv; at_stage := s |}]> (invocations st)
    | None => invocations st
    end.
Proof. unfold set_stage. now destruct (invocations st !! id). Qed.

Lemma settled_after_restage id s st :
  s <> AwaitingLookup ->
  (forall j inv, j <> id -> invocations st !! j = Some inv ->
                 settled_stage inv) ->
  (forall inv, invocations st !! id = Some inv -> race_finished (race inv)) ->
  timers_ok (set_stage id s st).
Proof.
  intros Hs Hothers Hid. unfold timers_ok.
  rewrite invocations_set_stage.
  destruct (invocations st !! id) as [inv|] eqn:Hinv.
  - apply Forall_lookup. intros j x Hj.
    destruct (decide (j = id)) as [-> | Hne].
    + rewrite list_lookup_insert_eq in Hj
        by (now apply lookup_lt_Some in Hinv).
      injection Hj as <-. unfold settled_stage. cbn [at_stage race].
      destruct s; [now destruct Hs | now apply Hid | now apply Hid].
    + rewrite list_lookup_insert_ne in Hj by congruence.
      now apply (Hothers j).
  - apply Forall_lookup. intros j x Hj.
    destruct (decide (j = id)) as [-> | Hne]; [congruence |].
    now apply (Hothers j).
Qed.

Lemma invocations_finally id st :
  invocations (finally_block id st)
  = invocations (set_stage id Completed st).
Proof.
  unfold finally_block. rewrite !invocations_set_stage.
  now destruct st.
Qed.

(* After its lookup has settled an invocation is past AwaitingLookup. *)
Lemma invocations_after_lookup id r st :
  exists s, s <> AwaitingLookup
            /\ invocations (after_lookup cfg id r st)
               = invocations (set_stage id s st).
Proof.
  unfold after_lookup. destruct r as [response|error].
  - destruct ((status response =? 429) || (status response =? 503)).
    + exists Completed. split; [discriminate |]. cbv zeta.
      rewrite invocations_finally, !invocations_set_stage.
      now destruct (embedded cfg).
    + destruct (negb (ok response)).
      * exists Completed. split; [discriminate |].
        rewrite invocations_finally, !invocations_set_stage.
        now rewrite invocations_catch_block.
      * exists (AwaitingJson response). split; [discriminate | reflexivity].
  - exists Completed. split; [discriminate |].
    rewrite invocations_finally, !invocations_set_stage.
    now rewrite invocations_catch_block.
Qed.

Lemma invocations_after_json id r st :
  invocations (after_json cfg id r st)
  = invocations (set_stage id Completed st).
Proof.
  unfold after_json. destruct r as [addressData|error].
  - cbv zeta. rewrite invocations_finally, !invocations_set_stage.
    cbn [showToast emit with_document invocations].
    rewrite invocations_handlePhoneChange.
    now destruct (embedded cfg).
  - rewrite invocations_finally, !invocations_set_stage.
    now rewrite invocations_catch_block.
Qed.

Lemma timers_ok_same st st' :
  invocations st' = invocations st -> timers_ok st -> timers_ok st'.
Proof. unfold timers_ok. now intros ->. Qed.

Lemma timers_ok_handleSubmit st :
  timers_ok st -> timers_ok (handleSubmit cfg st).
Proof.
  intros H. unfold handleSubmit.
  destruct (negb (validatePhoneNumber (phoneNumber st)) || isLoading st);
    [exact H |].
  unfold timers_ok. cbv zeta. cbn [with_invocations invocations emit
                                    setLoading with_isLoading with_document].
  apply Forall_app. split; [exact H |].
  constructor; [reflexivity | constructor].
Qed.

(* Either event ends a race that has not been decided. *)
Lemma first_event_settles ev :
  race_finished (race_step (@callWithTimeout Response None 8000) ev)
  /\ exists r,
       returned (race_step (@callWithTimeout Response None 8000) ev) = Some r.
Proof.
  destruct ev as [s|].
  - destruct (finished_after_call_settles (A:=Response) s 8000)
      as (Hf & Hr & _).
    split; [exact Hf | now exists s].
  - destruct (finished_after_timer (A:=Response) 8000) as (Hf & Hr & _).
    split; [exact Hf | eauto].
Qed.

Lemma timers_ok_deliver id ev st :
  timers_ok st -> timers_ok (deliver cfg id ev st).
Proof.
  intros H. unfold deliver.
  destruct (invocations st !! id) as [inv|] eqn:Hinv; [| exact H].
  cbv zeta.
  pose proof (proj1 (Forall_lookup _ _) H) as Hall.
  pose proof (Hall id inv Hinv) as Hwf. unfold settled_stage in Hwf.
  set (inv' := {| race := race_step (race inv) ev;
                  at_stage := at_stage inv |}).
  assert (Hlt : (id < length (invocations st))%nat)
    by now apply lookup_lt_Some in Hinv.
  destruct (at_stage inv) eqn:Hst.
  - rewrite Hwf. destruct (first_event_settles ev) as [Hfin [r Hr]].
    change (returned (callWithTimeout None 8000))
      with (@None (settlement Response)).
    cbv iota. rewrite Hr.
    destruct (invocations_after_lookup id r (set_invocation id inv' st))
      as (s & Hs & Heq).
    eapply timers_ok_same; [exact Heq |].
    apply settled_after_restage; [exact Hs | |].
    + intros j x Hne Hj. cbn [set_invocation with_invocations invocations]
        in Hj.
      rewrite list_lookup_insert_ne in Hj by congruence.
      now apply (Hall j).
    + intros x Hx. cbn [set_invocation with_invocations invocations] in Hx.
      rewrite list_lookup_insert_eq in Hx by exact Hlt.
      injection Hx as <-. unfold inv'. cbn [race]. now rewrite Hwf.
  - unfold timers_ok, set_invocation.
    cbn [with_invocations invocations].
    apply Forall_insert; [exact H |].
    unfold settled_stage, inv'. cbn [at_stage race].
    now apply finished_step.
  - unfold timers_ok, set_invocation.
    cbn [with_invocations invocations].
    apply Forall_insert; [exact H |].
    unfold settled_stage, inv'. cbn [at_stage race].
    now apply finished_step.
Qed.

Lemma timers_ok_step st ev : timers_ok st -> timers_ok (step cfg st ev).
Proof.
  intros H. destruct ev; cbn [step].
  - eapply timers_ok_same; [| exact H].
    now rewrite invocations_handlePhoneChange.
  - unfold paste_callback. cbv zeta.
    destruct (negb (Js.str_eq (input_value (document st))
                              (sanitize (input_value (document st)))));
      [| exact H].
    eapply timers_ok_same; [| exact H].
    now rewrite invocations_handlePhoneChange.
  - now apply timers_ok_handleSubmit.
  - now apply timers_ok_deliver.
  - now apply timers_ok_deliver.
  - destruct (invocations st !! id) as [[rc [| response |]]|] eqn:Hinv;
      try exact H.
    eapply timers_ok_same; [apply invocations_after_json |].
    pose proof (proj1 (Forall_lookup _ _) H) as Hall.
    apply settled_after_restage; [discriminate | |].
    + intros j x _ Hj. now apply (Hall j).
    + intros x Hx. rewrite Hinv in Hx. injection Hx as <-.
      exact (Hall id _ Hinv).
  - eapply timers_ok_same; [| exact H].
    pose proof (core_manual_form_submit cfg manual_name manual_address
                  manual_postal manual_city st) as Hc.
    unfold core in Hc. now injection Hc.
  - eapply timers_ok_same; [| exact H].
    pose proof (core_closeManualEntryPopup st) as Hc.
    unfold core in Hc. now injection Hc.
  - exact H.
Qed.

Lemma page_ok_run st evs : page_ok cfg st -> page_ok cfg (run cfg st evs).
Proof.
  revert st. induction evs as [|ev evs IH]; intros st H; [exact H |].
  apply IH. destruct H as (Hf & Hp & Ht).
  split; [now apply frame_ok_step |].
  split; [now apply phone_ok_step | now apply timers_ok_step].
Qed.

Lemma page_ok_initially : page_ok cfg initial_widget.
Proof.
  split; [| split].
  - constructor; cbn; auto; try constructor; try discriminate.
  - constructor; cbn; auto; try constructor; try discriminate.
  - constructor.
Qed.

End TimerFacts.

(** ** Consequences for every run of the widget *)


Lemma permitted_posted cfg efs :
  Forall (permitted cfg) efs ->
  Forall (fun m => embedded cfg = true
                   /\ msg_type m = "deliverease-open-popup")
         (posted efs).
Proof.
  induction 1 as [|e efs He _ IH]; [constructor |].
  destruct e; cbn [posted]; try exact IH.
  constructor; [| exact IH]. cbn in He. tauto.
Qed.

Lemma permitted_popups cfg efs :
  Forall (permitted cfg) efs -> embedded cfg = true -> popups efs = [].
Proof.
  intros H Hemb. induction H as [|e efs He _ IH]; [reflexivity |].
  destruct e; cbn [popups]; try exact IH.
  cbn in He. congruence.
Qed.

(** X3. The stored phone number never holds anything but decimal digits,
    and the phone field always shows exactly the stored number. *)
Theorem stored_number_is_digits_and_shown (cfg : config) (evs : list event) :
  let st := run cfg initial_widget evs in
  only_decimal_digits (phoneNumber st)
  /\ input_value (document st) = phoneNumber st.
Proof.
  destruct (page_ok_run cfg initial_widget evs (page_ok_initially cfg))
    as (_ & [Hd Hf _ _] & _).
  now split.
Qed.

(** X4. By the time the paste listener's deferred callback runs, the input
    handler has already sanitized the field: the callback changes nothing. *)
Theorem paste_callback_changes_nothing (cfg : config) (evs : list event) :
  let st := run cfg initial_widget evs in
  step cfg st PasteDeferred = st.
Proof.
  destruct (page_ok_run cfg initial_widget evs (page_ok_initially cfg))
    as (_ & [Hd Hf _ _] & _).
  cbn [step]. unfold paste_callback. cbv zeta.
  rewrite Hf, (sanitize_fixes_digits _ Hd).
  unfold Js.str_eq. now rewrite String.eqb_refl.
Qed.

(** X5. Every request the widget ever makes is a POST to
    API_URL/addresslookup/address whose body is { phone_number } with a
    number of exactly eight decimal digits. *)
Theorem every_fetch_is_a_valid_lookup
    (cfg : config) (evs : list event)
    (url method : string) (headers : list (string * string)) (body : Json) :
  FetchCall url method headers body ∈ trace (run cfg initial_widget evs) ->
  url = API_URL cfg +:+ "/addresslookup/address"
  /\ method = "POST"
  /\ exists number,
       body = JObject [("phone_number", JString number)]
       /\ String.length number = 8%nat /\ only_decimal_digits number.
Proof.
  intros Hin.
  destruct (page_ok_run cfg initial_widget evs (page_ok_initially cfg))
    as ([Ht _ _ _ _ _] & _ & _).
  pose proof (proj1 (Forall_forall _ _) Ht _ Hin) as (Hu & Hm & n & Hb & Hv).
  split; [exact Hu |]. split; [exact Hm |]. exists n. split; [exact Hb |].
  unfold validatePhoneNumber, norwegianPhoneRegex in Hv.
  rewrite test_repeat_set in Hv. apply andb_true_iff in Hv as [Hlen Hdig].
  split; [now apply Nat.eqb_eq | now apply forallb_digits].
Qed.

Lemma every_fetch_is_a_valid_lookup_witness :
  let cfg := sample_config false in
  let e := FetchCall "https://api.example.test/addresslookup/address" "POST"
             [("Content-Type", "application/json")]
             (JObject [("phone_number", JString "12345678")]) in
  e ∈ trace (run cfg initial_widget [UserInput "12 34 56 78"; SubmitForm])
  /\ exists number,
       JObject [("phone_number", JString "12345678")]
       = JObject [("phone_number", JString number)]
       /\ String.length number = 8%nat /\ only_decimal_digits number.
Proof.
  assert (Hin : FetchCall "https://api.example.test/addresslookup/address"
                  "POST" [("Content-Type", "application/json")]
                  (JObject [("phone_number", JString "12345678")])
                ∈ trace (run (sample_config false) initial_widget
                           [UserInput "12 34 56 78"; SubmitForm]))
    by (vm_compute; apply list_elem_of_here).
  split; [exact Hin |].
  exact (proj2 (proj2 (every_fetch_is_a_valid_lookup
                         (sample_config false)
                         [UserInput "12 34 56 78"; SubmitForm] _ _ _ _ Hin))).
Defined.

(** X6. Whatever happens, every postMessage call is made by an embedded
    widget, with target origin '*' and type deliverease-open-popup: the
    deliverease-manual-data message of the manual form is never sent, and a
    widget that is not embedded never posts at all. *)
Theorem posts_only_open_popup_when_embedded
    (cfg : config) (evs : list event) :
  let st := run cfg initial_widget evs in
  Forall (fun e => match e with
                   | PostMessage m targetOrigin =>
                       embedded cfg = true /\ targetOrigin = "*"
                       /\ msg_type m = "deliverease-open-popup"
                   | _ => True
                   end) (trace st)
  /\ (embedded cfg = false -> posted (trace st) = []).
Proof.
  intros st.
  destruct (page_ok_run cfg initial_widget evs (page_ok_initially cfg))
    as ([Ht _ _ _ _ _] & _ & _).
  fold st in Ht. split.
  - eapply Forall_impl; [exact Ht |].
    intros e He. destruct e; try exact I. cbn in He. tauto.
  - intros Hemb. pose proof (permitted_posted cfg _ Ht) as Hp.
    destruct (posted (trace st)) as [|m ms]; [reflexivity |].
    inversion Hp as [|? ? [Habs _] _]. congruence.
Qed.

Lemma posts_only_open_popup_when_embedded_witness :
  let cfg := sample_config false in
  let evs := [UserInput "12345678"; SubmitForm; TimeoutElapses 0;
              ManualFormSubmit "Ola Nordmann" "Storgata 1" "0155" "Oslo"] in
  embedded cfg = false
  /\ popups (trace (run cfg initial_widget evs))
     = ["Request took too long. Please try again or enter the address manually."]
  /\ posted (trace (run cfg initial_widget evs)) = [].
Proof.
  split; [reflexivity |]. split; [vm_compute; reflexivity |].
  exact (proj2 (posts_only_open_popup_when_embedded (sample_config false)
                  [UserInput "12345678"; SubmitForm; TimeoutElapses 0;
                   ManualFormSubmit "Ola Nordmann" "Storgata 1" "0155"
                                    "Oslo"]) eq_refl).
Defined.

(** X7. An embedded widget never opens its own manual-entry modal: no
    overlay is in its page and none was ever shown, so a run of the manual
    form's submit listener would find no form and changes nothing. *)
Theorem embedded_never_opens_modal (cfg : config) (evs : list event) :
  embedded cfg = true ->
  let st := run cfg initial_widget evs in
  overlays (document st) = []
  /\ popups (trace st) = []
  /\ (forall n a p c, step cfg st (ManualFormSubmit n a p c) = st)
  /\ step cfg st ManualCancel = st.
Proof.
  intros Hemb st.
  destruct (page_ok_run cfg initial_widget evs (page_ok_initially cfg))
    as ([Ht Ho _ _ _ _] & _ & _).
  fold st in Ht, Ho. specialize (Ho Hemb).
  split; [exact Ho |]. split; [now apply (permitted_popups cfg) |].
  split.
  - intros n a p c. cbn [step]. unfold manual_form_submit. now rewrite Ho.
  - cbn [step]. unfold closeManualEntryPopup. now rewrite Ho.
Qed.

Lemma embedded_never_opens_modal_witness :
  let cfg := sample_config true in
  let st := run cfg initial_widget
                [UserInput "12345678"; SubmitForm; TimeoutElapses 0] in
  embedded cfg = true
  /\ overlays (document st) = []
  /\ step cfg st (ManualFormSubmit "Ola Nordmann" "Storgata 1" "0155" "Oslo")
     = st.
Proof.
  pose proof (embedded_never_opens_modal (sample_config true)
                [UserInput "12345678"; SubmitForm; TimeoutElapses 0] eq_refl)
    as (Ho & _ & Hm & _).
  split; [reflexivity |]. split; [exact Ho |].
  exact (Hm "Ola Nordmann" "Storgata 1" "0155" "Oslo").
Defined.

(** X8. The script never shows an error toast: showToast is only ever called
    without its isError flag, and the toast's class is 'toast' or
    'toast show', never 'toast show error'. *)
Theorem no_error_toast (cfg : config) (evs : list event) :
  let st := run cfg initial_widget evs in
  Forall (fun e => match e with
                   | ToastShown _ isError => isError = false
                   | _ => True
                   end) (trace st)
  /\ (toast_class (document st) = "toast"
      \/ toast_class (document st) = "toast show").
Proof.
  destruct (page_ok_run cfg initial_widget evs (page_ok_initially cfg))
    as ([Ht _ _ _ _ Hc] & _ & _).
  split; [| exact Hc].
  eapply Forall_impl; [exact Ht |].
  intros e He. now destruct e.
Qed.

(** X9. The phone field is disabled and the spinner is shown exactly while a
    lookup is awaited; the button text is hidden exactly then. *)
Theorem controls_follow_loading (cfg : config) (evs : list event) :
  let st := run cfg initial_widget evs in
  input_disabled (document st) = isLoading st
  /\ spinner_display (document st)
     = (if isLoading st then DisplayBlock else DisplayNone)
  /\ (buttonText_display (document st) = DisplayNone
      <-> isLoading st = true).
Proof.
  destruct (page_ok_run cfg initial_widget evs (page_ok_initially cfg))
    as ([_ _ Hi Hs Hb _] & _ & _).
  now repeat split; try apply Hb.
Qed.

Lemma armed_implies_in_flight l :
  Forall settled_stage l ->
  (length (List.filter timer_armed l) <= count_in_flight l)%nat
  /\ Forall (fun inv => timer_armed inv = true
                        <-> at_stage inv = AwaitingLookup) l.
Proof.
  unfold count_in_flight.
  induction 1 as [|inv l Hinv _ [IHc IHf]]; [split; [cbn; lia | constructor] |].
  assert (Hiff : timer_armed inv = true <-> at_stage inv = AwaitingLookup).
  { unfold settled_stage in Hinv. unfold timer_armed.
    destruct (at_stage inv).
    - rewrite Hinv. now cbn.
    - destruct Hinv as (_ & _ & Hna).
      destruct (timeoutHandle (race inv)) as [d| |];
        [now destruct (Hna d) | split; discriminate | split; discriminate].
    - destruct Hinv as (_ & _ & Hna).
      destruct (timeoutHandle (race inv)) as [d| |];
        [now destruct (Hna d) | split; discriminate | split; discriminate]. }
  split; [| now constructor].
  cbn [List.filter]. unfold in_flight at 1.
  destruct (timer_armed inv) eqn:Ea.
  - rewrite (proj1 Hiff eq_refl). cbn [length]. lia.
  - destruct (at_stage inv); cbn [length]; lia.
Qed.

(** X10. No timeout timer outlives its submission: the timer of an invocation
    is armed exactly while that invocation waits for its lookup, so at most
    one timer is armed, and none when no lookup is awaited. *)
Theorem timers_do_not_leak (cfg : config) (evs : list event) :
  let st := run cfg initial_widget evs in
  (armed_timers st <= (if isLoading st then 1 else 0))%nat
  /\ Forall (fun inv => timer_armed inv = true
                        <-> at_stage inv = AwaitingLookup)
            (invocations st).
Proof.
  intros st.
  destruct (page_ok_run cfg initial_widget evs (page_ok_initially cfg))
    as (_ & _ & Ht).
  destruct (single_request_run cfg initial_widget evs
              single_request_initially) as [Hc _].
  fold st in Ht, Hc.
  destruct (armed_implies_in_flight _ Ht) as [Hle Hall].
  split; [| exact Hall].
  unfold armed_timers. unfold requests_in_flight in Hc. lia.
Qed.



(** X12. The first event that reaches a lookup decides it, and only that one:
    in every state the widget can reach, a settlement of fetch or the turn
    of the timer either finds the invocation awaiting its lookup, which then
    goes on with its timer no longer armed, or changes nothing the user or
    the parent can see; for a number no invocation has it changes nothing
    at all. *)
Theorem lookup_settled_by_first_event
    (cfg : config) (evs : list event) (id : nat)
    (ev : race_event Response) :
  let st := run cfg initial_widget evs in
  let st' := step cfg st (lookup_event id ev) in
  match invocations st !! id with
  | None => st' = st
  | Some inv =>
      match at_stage inv with
      | AwaitingLookup =>
          exists inv',
            invocations st' !! id = Some inv'
            /\ at_stage inv' <> AwaitingLookup
            /\ timer_armed inv' = false
      | AwaitingJson _ | Completed =>
          phoneNumber st' = phoneNumber st
          /\ isLoading st' = isLoading st
          /\ document st' = document st
          /\ trace st' = trace st
          /\ requests_in_flight st' = requests_in_flight st
      end
  end.
Proof.
  intros st st'.
  assert (Est : st' = deliver cfg id ev st) by (now destruct ev).
  clearbody st'. subst st'.
  destruct (page_ok_run cfg initial_widget evs (page_ok_initially cfg))
    as (_ & _ & Ht).
  fold st in Ht. clearbody st.
  pose proof (proj1 (Forall_lookup _ _) Ht) as Hall.
  unfold deliver.
  destruct (invocations st !! id) as [inv|] eqn:Hinv; [| reflexivity].
  cbv zeta.
  assert (Hlt : (id < length (invocations st))%nat)
    by now apply lookup_lt_Some in Hinv.
  pose proof (Hall id inv Hinv) as Hwf. unfold settled_stage in Hwf.
  set (inv' := {| race := race_step (race inv) ev;
                  at_stage := at_stage inv |}).
  assert (Hsame : forall response_or_done,
             at_stage inv = response_or_done ->
             in_flight inv' = in_flight inv ->
             requests_in_flight (set_invocation id inv' st)
             = requests_in_flight st).
  { intros _ _ Hfl. unfold requests_in_flight, set_invocation.
    cbn [with_invocations invocations].
    pose proof (count_insert (invocations st) id inv inv' Hinv) as Hc.
    rewrite Hfl in Hc. destruct (in_flight inv); lia. }
  destruct (at_stage inv) eqn:Hst.
  - rewrite Hwf. destruct (first_event_settles ev) as [Hfin [r Hr]].
    change (returned (callWithTimeout None 8000))
      with (@None (settlement Response)).
    cbv iota. rewrite Hr.
    destruct (invocations_after_lookup cfg id r (set_invocation id inv' st))
      as (s & Hs & Heq).
    rewrite Heq, invocations_set_stage.
    cbn [set_invocation with_invocations invocations].
    rewrite list_lookup_insert_eq by exact Hlt.
    eexists. split; [apply list_lookup_insert_eq; now rewrite length_insert |].
    cbn [at_stage race]. split; [exact Hs |].
    unfold timer_armed, inv'. cbn [race]. rewrite Hwf.
    destruct Hfin as (_ & _ & Hna).
    destruct (timeoutHandle _) as [d| |]; [now destruct (Hna d) | |];
      reflexivity.
  - repeat split; try reflexivity.
    apply (Hsame (AwaitingJson response) eq_refl).
    unfold in_flight, inv'. cbn [at_stage]. now rewrite Hst.
  - repeat split; try reflexivity.
    apply (Hsame Completed eq_refl).
    unfold in_flight, inv'. cbn [at_stage]. now rewrite Hst.
Qed.

(** X13. What the submit control shows is what a submit does: in every state
    the widget can reach, a submit with the control enabled makes exactly
    one request, for the number the phone field shows, and disables the
    control; a submit with the control disabled changes nothing. *)
Theorem submit_sends_the_number_shown (cfg : config) (evs : list event) :
  let st := run cfg initial_widget evs in
  let st' := step cfg st SubmitForm in
  if submit_enabled st
  then new_effects st st'
       = [FetchCall (API_URL cfg +:+ "/addresslookup/address") "POST"
            [("Content-Type", "application/json")]
            (JObject [("phone_number",
                       JString (input_value (document st)))])]
       /\ isLoading st' = true
       /\ submit_enabled st' = false
       /\ requests_in_flight st' = 1%nat
  else st' = st.
Proof.
  intros st st'.
  destruct (page_ok_run cfg initial_widget evs (page_ok_initially cfg))
    as (_ & [_ Hf _ _] & _).
  destruct (single_request_run cfg initial_widget evs
              single_request_initially) as [Hc Hb].
  fold st in Hf, Hc, Hb.
  assert (Hs' : single_request st') by
    (apply single_request_step; now split).
  destruct Hs' as [Hc' Hb'].
  subst st'. clearbody st. cbn [step] in *.
  unfold submit_enabled. rewrite Hb', Hb. clear Hb' Hb.
  unfold handleSubmit in *.
  destruct (negb (validatePhoneNumber (phoneNumber st)) || isLoading st)
    eqn:G; cbn [negb]; [reflexivity |].
  destruct st as [ph ld doc invs tr].
  cbn [phoneNumber document] in Hf. subst ph.
  cbv [phoneNumber isLoading document invocations trace with_invocations
       emit setLoading with_isLoading with_document set_loading_controls
       button_disabled new_effects] in *.
  rewrite orb_true_r.
  split; [| split; [reflexivity | split; [reflexivity | exact Hc']]].
  now rewrite drop_app_length.
Qed.

(** ** The generator's choice of language *)


(** ** The postal-code form *)

Section PostalCodeFormFacts.

Import PostalCodeForm.

Lemma calls_after_step st ev :
  exists new, onSubmit_calls (step st ev) = onSubmit_calls st ++ new
              /\ Forall (fun code => code = postalCode st
                                     /\ (4 <= length code)%nat) new
              /\ (within_maxLength ev ->
                  (length (postalCode st) <= maxLength)%nat ->
                  (length (postalCode (step st ev)) <= maxLength)%nat).
Proof.
  destruct ev as [value|]; cbn [step].
  - exists []. cbn. rewrite app_nil_r. repeat split; auto.
  - unfold handleSubmit.
    destruct (4 <=? length (postalCode st))%nat eqn:E.
    + exists [postalCode st]. cbn [onSubmit_calls postalCode].
      apply Nat.leb_le in E. repeat split; auto.
    + exists []. rewrite app_nil_r. repeat split; auto.
Qed.

Lemma calls_after_run evs : forall st,
  Forall (fun code => (4 <= length code)%nat) (onSubmit_calls st) ->
  Forall (fun code => (4 <= length code)%nat) (onSubmit_calls (run st evs)).
Proof.
  induction evs as [|ev evs IH]; intros st H; [exact H |].
  cbn [run fold_left]. apply IH.
  destruct (calls_after_step st ev) as (new & -> & Hnew & _).
  apply Forall_app. split; [exact H |].
  eapply Forall_impl; [exact Hnew |]. cbn. tauto.
Qed.

Lemma calls_after_bounded_run evs : forall st,
  Forall within_maxLength evs ->
  (length (postalCode st) <= maxLength)%nat ->
  Forall (fun code => length code = 4%nat) (onSubmit_calls st) ->
  Forall (fun code => length code = 4%nat) (onSubmit_calls (run st evs)).
Proof.
  induction evs as [|ev evs IH]; intros st Hevs Hlen H; [exact H |].
  inversion Hevs as [|? ? Hev Hrest]; subst.
  cbn [run fold_left].
  destruct (calls_after_step st ev) as (new & Heq & Hnew & Hbound).
  apply IH; [exact Hrest | now apply Hbound |].
  rewrite Heq. apply Forall_app. split; [exact H |].
  eapply Forall_impl; [exact Hnew |]. cbn. intros code [-> Hge].
  unfold maxLength in Hlen. lia.
Qed.

End PostalCodeFormFacts.

(** X15. The postal-code form passes to onSubmit only codes of at least four
    code units; when every edit respects the field's maxLength of 4, every
    code it passes has exactly four. *)
Theorem postal_code_submitted_has_four_units
    (evs : list PostalCodeForm.event) :
  let st := PostalCodeForm.run PostalCodeForm.initial evs in
  Forall (fun code => (4 <= length code)%nat)
         (PostalCodeForm.onSubmit_calls st)
  /\ (Forall PostalCodeForm.within_maxLength evs ->
      Forall (fun code => length code = 4%nat)
             (PostalCodeForm.onSubmit_calls st)).
Proof.
  split.
  - apply calls_after_run. constructor.
  - intros H. apply calls_after_bounded_run; [exact H | cbn; lia |].
    constructor.
Qed.

Lemma postal_code_submitted_has_four_units_witness :
  let evs := [PostalCodeForm.Change [48; 49; 53]%N; PostalCodeForm.Submit;
              PostalCodeForm.Change [48; 49; 53; 53]%N;
              PostalCodeForm.Submit] in
  Forall PostalCodeForm.within_maxLength evs
  /\ PostalCodeForm.onSubmit_calls
       (PostalCodeForm.run PostalCodeForm.initial evs)
     = [[48; 49; 53; 53]%N]
  /\ Forall (fun code => length code = 4%nat)
            (PostalCodeForm.onSubmit_calls
               (PostalCodeForm.run PostalCodeForm.initial evs)).
Proof.
  assert (H : Forall PostalCodeForm.within_maxLength
                [PostalCodeForm.Change [48; 49; 53]%N; PostalCodeForm.Submit;
                 PostalCodeForm.Change [48; 49; 53; 53]%N;
                 PostalCodeForm.Submit])
    by (repeat constructor).
  split; [exact H |]. split; [reflexivity |].
  exact (proj2 (postal_code_submitted_has_four_units _) H).
Defined.

(** ** The build configuration *)

Section ViteConfigFacts.

Import ViteConfig.

Lemma replace_first_nonempty pattern replacement s :
  replacement <> "" -> s <> "" -> replace_first pattern replacement s <> "".
Proof.
  intros Hr Hs. destruct s as [|c s]; [now destruct Hs |].
  cbn [replace_first].
  destruct (String.prefix pattern (String c s)); [| discriminate].
  destruct replacement; [now destruct Hr | discriminate].
Qed.

Lemma append_nonempty_r a b : b <> "" -> a +:+ b <> "".
Proof.
  intros Hb. destruct a; [exact Hb | discriminate].
Qed.

Lemma coalesce_last_truthy a b v :
  v <> "" ->
  exists w, coalesce [a; b; Some v] = inr w /\ w <> ""
            /\ (truthy a = true -> a = Some w)
            /\ (truthy a = false -> truthy b = true -> b = Some w)
            /\ (truthy a = false -> truthy b = false -> w = v).
Proof.
  intros Hv. destruct a as [[|c s]|], b as [[|c' s']|]; cbn [coalesce truthy];
    destruct v as [|c'' s'']; try (now destruct Hv);
    eexists; (split; [reflexivity |]); repeat split;
    try discriminate; try reflexivity.
Qed.

End ViteConfigFacts.

(** X16. coalesce returns the first of its arguments that is neither
    undefined nor empty, and throws 'All values are falsy.' exactly when
    every argument is undefined or empty. *)
Theorem coalesce_returns_first_truthy (args : list (option string)) :
  match ViteConfig.coalesce args with
  | inr v =>
      exists before after,
        args = before ++ Some v :: after
        /\ v <> ""
        /\ Forall (fun a => ViteConfig.truthy a = false) before
  | inl error =>
      error = Error "All values are falsy."
      /\ Forall (fun a => ViteConfig.truthy a = false) args
  end.
Proof.
  induction args as [|a args IH]; [now split |].
  cbn [ViteConfig.coalesce]. destruct a as [[|c s]|].
  - destruct (ViteConfig.coalesce args) as [error|v].
    + destruct IH as [-> H]. split; [reflexivity | now constructor].
    + destruct IH as (before & after & -> & Hv & Hb).
      exists (Some "" :: before), after. repeat split; auto.
  - exists [], args. repeat split; [discriminate | constructor].
  - destruct (ViteConfig.coalesce args) as [error|v].
    + destruct IH as [-> H]. split; [reflexivity | now constructor].
    + destruct IH as (before & after & -> & Hv & Hb).
      exists (None :: before), after. repeat split; auto.
Qed.

(** X17. Whatever the environment holds, the title and the two favicons are
    computed without an exception and are not empty; a favicon variable
    that is set is used for its own icon, and for the other icon too when
    the other's variable is unset or empty. *)
Theorem title_and_favicons_always_defined (env : ViteConfig.environment) :
  (exists title, ViteConfig.APP_TITLE env = inr title /\ title <> "")
  /\ (exists light dark,
         ViteConfig.APP_FAVICON_LIGHT env = inr light /\ light <> ""
         /\ ViteConfig.APP_FAVICON_DARK env = inr dark /\ dark <> ""
         /\ (ViteConfig.truthy (ViteConfig.ENV_APP_FAVICON_LIGHT env) = true ->
             ViteConfig.ENV_APP_FAVICON_LIGHT env = Some light
             /\ (ViteConfig.truthy (ViteConfig.ENV_APP_FAVICON_DARK env)
                 = false -> dark = light))
         /\ (ViteConfig.truthy (ViteConfig.ENV_APP_FAVICON_DARK env) = true ->
             ViteConfig.ENV_APP_FAVICON_DARK env = Some dark
             /\ (ViteConfig.truthy (ViteConfig.ENV_APP_FAVICON_LIGHT env)
                 = false -> light = dark))).
Proof.
  split.
  - destruct (coalesce_last_truthy (ViteConfig.ENV_APP_TITLE env)
                (ViteConfig.DATABUTTON_APPNAME env) "Databutton")
      as (w & Hw & Hne & _); [discriminate |].
    now exists w.
  - assert (Hl : ViteConfig.replace_first "//" "/"
                   (ViteConfig.APP_BASE_PATH env +:+ "/light.ico") <> "")
      by (apply replace_first_nonempty;
          [discriminate | apply append_nonempty_r; discriminate]).
    assert (Hd : ViteConfig.replace_first "//" "/"
                   (ViteConfig.APP_BASE_PATH env +:+ "/dark.ico") <> "")
      by (apply replace_first_nonempty;
          [discriminate | apply append_nonempty_r; discriminate]).
    destruct (coalesce_last_truthy (ViteConfig.ENV_APP_FAVICON_LIGHT env)
                (ViteConfig.ENV_APP_FAVICON_DARK env) _ Hl)
      as (light & Hlight & Hlne & Hl1 & Hl2 & _).
    destruct (coalesce_last_truthy (ViteConfig.ENV_APP_FAVICON_DARK env)
                (ViteConfig.ENV_APP_FAVICON_LIGHT env) _ Hd)
      as (dark & Hdark & Hdne & Hd1 & Hd2 & _).
    exists light, dark. repeat split; try assumption.
    + now apply Hl1.
    + intros Hdf. specialize (Hl1 H). specialize (Hd2 Hdf H). congruence.
    + now apply Hd1.
    + intros Hlf. specialize (Hd1 H). specialize (Hl2 Hlf H). congruence.
Qed.

Lemma title_and_favicons_always_defined_witness :
  let env := {| ViteConfig.DATABUTTON_PROJECT_ID := None;
                ViteConfig.DATABUTTON_SERVICE_TYPE := None;
                ViteConfig.DEVX_HOST := None;
                ViteConfig.DEVX_BASE_PATH := None;
                ViteConfig.UI_BASE_PATH := None;
                ViteConfig.ENV_API_PATH := None;
                ViteConfig.ENV_APP_TITLE := None;
                ViteConfig.DATABUTTON_APPNAME := Some "DeliverEase";
                ViteConfig.ENV_APP_FAVICON_LIGHT := None;
                ViteConfig.ENV_APP_FAVICON_DARK := Some "/icons/night.ico" |} in
  ViteConfig.truthy (ViteConfig.ENV_APP_FAVICON_DARK env) = true
  /\ ViteConfig.truthy (ViteConfig.ENV_APP_FAVICON_LIGHT env) = false
  /\ ViteConfig.APP_TITLE env = inr "DeliverEase"
  /\ exists light dark,
       ViteConfig.APP_FAVICON_LIGHT env = inr light
       /\ ViteConfig.APP_FAVICON_DARK env = inr dark
       /\ light = dark.
Proof.
  cbv zeta.
  destruct (title_and_favicons_always_defined
              {| ViteConfig.DATABUTTON_PROJECT_ID := None;
                 ViteConfig.DATABUTTON_SERVICE_TYPE := None;
                 ViteConfig.DEVX_HOST := None;
                 ViteConfig.DEVX_BASE_PATH := None;
                 ViteConfig.UI_BASE_PATH := None;
                 ViteConfig.ENV_API_PATH := None;
                 ViteConfig.ENV_APP_TITLE := None;
                 ViteConfig.DATABUTTON_APPNAME := Some "DeliverEase";
                 ViteConfig.ENV_APP_FAVICON_LIGHT := None;
                 ViteConfig.ENV_APP_FAVICON_DARK := Some "/icons/night.ico" |})
    as (_ & light & dark & Hl & _ & Hd & _ & _ & Hdark).
  split; [reflexivity |]. split; [reflexivity |]. split; [reflexivity |].
  exists light, dark. split; [exact Hl |]. split; [exact Hd |].
  exact (proj2 (Hdark eq_refl) eq_refl).
Defined.

(** X18. When the host starts with 'http', the websocket URL is the API URL
    with that 'http' replaced by 'ws', so that https becomes wss, followed
    by the same path. *)
Theorem websocket_url_mirrors_api_url
    (env : ViteConfig.environment) (rest : string) :
  ViteConfig.devxHost env = "http" +:+ rest ->
  ViteConfig.API_URL env
  = "http" +:+ rest +:+ ViteConfig.API_PATH env +:+ "/routes"
  /\ ViteConfig.WS_API_URL env
     = "ws" +:+ rest +:+ ViteConfig.API_PATH env +:+ "/routes".
Proof.
  intros H. unfold ViteConfig.API_URL, ViteConfig.WS_API_URL. rewrite H.
  split; [reflexivity |].
  replace (ViteConfig.replace_first "http" "ws" ("http" +:+ rest))
    with ("ws" +:+ rest) by (destruct rest; reflexivity).
  reflexivity.
Qed.

Lemma websocket_url_mirrors_api_url_witness :
  ViteConfig.devxHost ViteConfig.empty_environment
  = "http" +:+ "s://api.databutton.com"
  /\ ViteConfig.WS_API_URL ViteConfig.empty_environment
     = "wss://api.databutton.com/_projects/MISSING-PROJECT-ID/dbtn/devx/app/routes".
Proof.
  split; [reflexivity |].
  exact (proj2 (websocket_url_mirrors_api_url ViteConfig.empty_environment
                  "s://api.databutton.com" eq_refl)).
Defined.
